(** * Ingestion hooks of tk-config-default2: a shallow embedding

    The development follows the two publish2 ingestion hooks,
    [hooks/tk-multi-publish2/ingest/collector.py] (manifest reconciliation,
    candidate item-type scoring, context resolution) and
    [hooks/tk-multi-publish2/ingest/ingest_files.py] (entity linking and its
    undo).  Python dictionaries that are only looked up and updated are
    finite maps; dictionaries that are iterated are given by the list of
    items that [iteritems()] yields; a call that may raise returns a
    [result]. *)

From Stdlib Require Import ZArith Ascii String List Lia.
From stdpp Require Import base option list gmap strings pretty fin_maps sorting.

Local Open Scope string_scope.
Local Open Scope Z_scope.

Set Warnings "-register-all".

(** ** Python values and exceptions *)

(** What [yaml.load] can produce; a mapping is kept as the list of items in
    the order [iteritems()] walks it. *)
Inductive yaml : Type :=
| YNone
| YBool (b : bool)
| YInt (z : Z)
| YStr (s : string)
| YList (items : list yaml)
| YMap (items : list (string * yaml)).

(** The exceptions the hooks can meet.  [TypeError] also stands for the
    [AttributeError] of a method looked up on a value of the wrong shape;
    [PyException] is a plain [Exception] raised by the hooks themselves;
    [Fault] is the failure of a round-trip to the tracking database. *)
Inductive exn : Type :=
| KeyError (key : string)
| IndexError
| TypeError
| ValueError
| IOError
| PyException (message : string)
| Fault.

Inductive result (A : Type) : Type :=
| Ok (a : A)
| Raise (e : exn).
Arguments Ok {A} a.
Arguments Raise {A} e.

#[global] Instance result_ret : MRet result := λ A a, Ok a.
#[global] Instance result_bind : MBind result := λ A B f r,
  match r with
  | Ok a => f a
  | Raise e => Raise e
  end.

Definition is_Ok {A} (r : result A) : Prop := ∃ a, r = Ok a.

(** A loop that threads an accumulator and stops at the first exception,
    and a loop that collects one result per element. *)
Fixpoint foldM {A B} (f : A → B → result A) (a : A) (l : list B) : result A :=
  match l with
  | [] => Ok a
  | x :: l' => a' ← f a x; foldM f a' l'
  end.

Fixpoint mapR {A B} (f : A → result B) (l : list A) : result (list B) :=
  match l with
  | [] => Ok []
  | x :: l' => y ← f x; ys ← mapR f l'; Ok (y :: ys)
  end.

(** Python truthiness of a loaded value. *)
Definition truthy (v : yaml) : bool :=
  match v with
  | YNone => false
  | YBool b => b
  | YInt z => negb (z =? 0)
  | YStr s => negb (String.eqb s "")
  | YList l => match l with [] => false | _ => true end
  | YMap m => match m with [] => false | _ => true end
  end.

(** [k in d] and [d[k]] on a mapping given by its items. *)
Fixpoint items_get (k : string) (d : list (string * yaml)) : option yaml :=
  match d with
  | [] => None
  | (k', v) :: d' => if String.eqb k' k then Some v else items_get k d'
  end.

Definition items_has (k : string) (d : list (string * yaml)) : bool :=
  match items_get k d with Some _ => true | None => false end.

(** [d.pop(k)] on the items of a mapping: the items left. *)
Definition items_remove (k : string) (d : list (string * yaml))
  : list (string * yaml) :=
  List.filter (λ kv, negb (String.eqb kv.1 k)) d.

(** [s.rsplit(c, 1)]: the parts before and after the last [c] of [s]. *)
Fixpoint rsplit_at (c : ascii) (s : string) : option (string * string) :=
  match s with
  | EmptyString => None
  | String a s' =>
      match rsplit_at c s' with
      | Some (l, r) => Some (String a l, r)
      | None => if Ascii.eqb a c then Some (EmptyString, s') else None
      end
  end.

(** ** Field Mapper *)

Module FieldMapper.

(** [table[k] if k in table else k] *)
Definition mapped_key (table : gmap string string) (k : string) : string :=
  match table !! k with
  | Some k' => k'
  | None => k
  end.

(** [{table[k] if k in table else k: v for k, v in record.iteritems()}]:
    the items are inserted in iteration order, a later item replacing an
    earlier one under the same mapped key. *)
Definition apply_mappings (table : gmap string string)
    (record : list (string * yaml)) : gmap string yaml :=
  foldl (λ d kv, <[mapped_key table kv.1 := kv.2]> d) ∅ record.

(** [DEFAULT_MANIFEST_SG_MAPPINGS] *)
Record manifest_mappings : Type := {
  file_snapshots : gmap string string;
  note_notes : gmap string string;
  note_snapshots : gmap string string;
  note_versions : gmap string string
}.

Definition default_snapshots_table : gmap string string :=
  list_to_map [("id", "sg_snapshot_id"); ("user", "snapshot_user");
               ("name", "manifest_name"); ("version", "snapshot_version")].

Definition DEFAULT_MANIFEST_SG_MAPPINGS : manifest_mappings := {|
  file_snapshots := default_snapshots_table;
  note_notes :=
    list_to_map [("notes", "description"); ("name", "snapshot_name");
                 ("body", "content"); ("id", "sg_client_note_id")];
  note_snapshots := default_snapshots_table;
  note_versions :=
    list_to_map [("id", "sg_client_version_id"); ("name", "version_name")]
|}.

(** Modelled from the spec: the inverse table of the Field Mapper and the
    mapping back through it.  The hooks only ever map forward; section 8 of
    the specification speaks of "the inverse table (constructed from the
    same mapping)", which is the table of the swapped pairs, applied like
    the forward one (a key absent from it is left unchanged). *)
Definition inverse_table (table : gmap string string) : gmap string string :=
  list_to_map (prod_swap <$> map_to_list table).

Definition unmapped_key (table : gmap string string) (k : string) : string :=
  mapped_key (inverse_table table) k.

(** No two keys of the table share a value. *)
Definition table_injective (table : gmap string string) : Prop :=
  NoDup ((map_to_list table).*2).

(** [v] is the image of a key of the table. *)
Definition is_target (table : gmap string string) (v : string) : Prop :=
  v ∈ (map_to_list table).*2.

#[global] Instance table_injective_dec table : Decision (table_injective table).
Proof. unfold table_injective. apply _. Defined.

#[global] Instance is_target_dec table v : Decision (is_target table v).
Proof. unfold is_target. apply _. Defined.

End FieldMapper.

(** ** Manifest Parser *)

Module Manifest.
Import FieldMapper.

(** *** Operations of Python on loaded values *)

(** [v.iteritems()] *)
Definition py_items (v : yaml) : result (list (string * yaml)) :=
  match v with
  | YMap m => Ok m
  | _ => Raise TypeError
  end.

(** [k in v] for a mapping [v]; the hooks go on to subscript [v] with a
    string, which only a mapping allows, so another shape raises. *)
Definition py_contains (k : string) (v : yaml) : result bool :=
  match v with
  | YMap m => Ok (items_has k m)
  | _ => Raise TypeError
  end.

(** [v[k]] with a string key. *)
Definition py_getitem (k : string) (v : yaml) : result yaml :=
  match v with
  | YMap m =>
      match items_get k m with
      | Some x => Ok x
      | None => Raise (KeyError k)
      end
  | _ => Raise TypeError
  end.

Fixpoint chars (s : string) : list yaml :=
  match s with
  | EmptyString => []
  | String c s' => YStr (String c EmptyString) :: chars s'
  end.

(** [for x in v] *)
Definition py_iter (v : yaml) : result (list yaml) :=
  match v with
  | YList l => Ok l
  | YMap m => Ok ((λ kv, YStr kv.1) <$> m)
  | YStr s => Ok (chars s)
  | _ => Raise TypeError
  end.

(** [len(v)] *)
Definition py_len (v : yaml) : result nat :=
  match v with
  | YList l => Ok (length l)
  | YMap m => Ok (length m)
  | YStr s => Ok (String.length s)
  | _ => Raise TypeError
  end.

(** [v[i]] with an index that is not negative. *)
Definition py_index (v : yaml) (i : nat) : result yaml :=
  match v with
  | YList l =>
      match l !! i with
      | Some x => Ok x
      | None => Raise IndexError
      end
  | YStr s =>
      match chars s !! i with
      | Some x => Ok x
      | None => Raise IndexError
      end
  | YMap _ => Raise (KeyError (pretty (Z.of_nat i)))
  | _ => Raise TypeError
  end.

(** A value used where [os.path.join] wants a string. *)
Definition py_str (v : yaml) : result string :=
  match v with
  | YStr s => Ok s
  | _ => Raise TypeError
  end.

(** [d.pop(k)] on a dictionary of fields. *)
Definition dict_pop (k : string) (d : gmap string yaml)
  : result (yaml * gmap string yaml) :=
  match d !! k with
  | Some v => Ok (v, delete k d)
  | None => Raise (KeyError k)
  end.

(** [d.update(other)]: the items of [other] win. *)
Definition dict_update (d other : gmap string yaml) : gmap string yaml :=
  other ∪ d.

(** [d[k] = v] on a mapping kept as its items. *)
Fixpoint items_set (k : string) (v : yaml) (d : list (string * yaml))
  : list (string * yaml) :=
  match d with
  | [] => [(k, v)]
  | (k', v') :: d' =>
      if String.eqb k' k then (k, v) :: d' else (k', v') :: items_set k v d'
  end.

(** *** [os.path] on POSIX paths *)

Definition is_slash (c : Ascii.ascii) : bool := Ascii.eqb c "/"%char.

Definition starts_with_slash (s : string) : bool :=
  match s with
  | String c _ => is_slash c
  | EmptyString => false
  end.

Fixpoint ends_with_slash (s : string) : bool :=
  match s with
  | EmptyString => false
  | String c EmptyString => is_slash c
  | String _ s' => ends_with_slash s'
  end.

(** [os.path.join(a, b)] *)
Definition path_join (a b : string) : string :=
  if starts_with_slash b then b
  else if String.eqb a "" || ends_with_slash a then a +:+ b
  else a +:+ "/" +:+ b.

(** [p[:p.rfind('/') + 1]] *)
Fixpoint head_of_path (p : string) : string :=
  match p with
  | EmptyString => EmptyString
  | String c p' =>
      let h := head_of_path p' in
      if is_slash c then String c h
      else match h with
           | EmptyString => EmptyString
           | _ => String c h
           end
  end.

(** [s.rstrip('/')] *)
Fixpoint rstrip_slash (s : string) : string :=
  match s with
  | EmptyString => EmptyString
  | String c s' =>
      match rstrip_slash s' with
      | EmptyString => if is_slash c then EmptyString else String c EmptyString
      | r => String c r
      end
  end.

(** [os.path.basename(p)]: [p[p.rfind('/') + 1:]] *)
Definition path_basename (p : string) : string :=
  match rsplit_at "/"%char p with
  | Some (_, tail) => tail
  | None => p
  end.

(** [os.path.dirname(p)]: the head keeps its slashes only when it is made
    of slashes alone. *)
Definition path_dirname (p : string) : string :=
  let head := head_of_path p in
  match rstrip_slash head with
  | EmptyString => head
  | stripped => stripped
  end.

(** *** [_process_manifest_file] *)

(** The [data] dictionary of one processed record: its mapped fields and
    its file groups, each group key (a directory or a file) with the list
    of its tag names. *)
Record item_data : Type := {
  fields : gmap string yaml;
  files : gmap string (list string)
}.

(** [{"file": data}] and [{"note": data}] *)
Inductive processed_entity : Type :=
| FileEntity (data : item_data)
| NoteEntity (data : item_data).

(** What [open(path, 'r')] followed by [yaml.load(f)] comes to for a path:
    the file cannot be opened, the load raises (the stream cannot be read
    or is not YAML), or a value is loaded. *)
Inductive manifest_read : Type :=
| OpenFails
| LoadFails
| Loaded (contents : yaml).

Definition read_failure_message (path : string) : string :=
  "Failed to read the manifest file " +:+ path.

(** The body of the [try] block once the document is loaded. *)
Definition read_contents (contents : yaml) : result (yaml * yaml * yaml) :=
  snapshots ← py_getitem "snapshots" contents;
  has_notes ← py_contains "notes" contents;
  notes ← (if has_notes : bool then py_getitem "notes" contents
           else Ok (YList []));
  has_versions ← py_contains "versions" contents;
  versions ← (if has_versions : bool then py_getitem "versions" contents
              else Ok (YList []));
  Ok (snapshots, notes, versions).

(** [if append_path not in data["files"]: data["files"][append_path] = list()] *)
Definition ensure_group (append_path : string)
    (data_files : gmap string (list string)) : gmap string (list string) :=
  match data_files !! append_path with
  | Some _ => data_files
  | None => <[append_path := []]> data_files
  end.

(** ... followed by [data["files"][append_path].append(file_type)] *)
Definition append_tag (append_path file_type : string)
    (data_files : gmap string (list string)) : gmap string (list string) :=
  alter (λ tags, (tags ++ [file_type])%list) append_path
        (ensure_group append_path data_files).

(** [os.path.join(base_dir, p_file["path"])] *)
Definition joined_path (base_dir : string) (p_file : yaml) : result string :=
  p ← py_getitem "path" p_file;
  s ← py_str p;
  Ok (path_join base_dir s).

(** One turn of [for file_type, files in file_types.iteritems()]. *)
Definition process_file_type (base_dir : string)
    (data_files : gmap string (list string)) (entry : string * yaml)
  : result (gmap string (list string)) :=
  let '(file_type, files) := entry in
  has_range ← py_contains "frame_range" files;
  listed ← py_getitem "files" files;
  if has_range : bool then
    first ← py_index listed 0;
    p_file ← joined_path base_dir first;
    Ok (append_tag (path_dirname p_file) file_type data_files)
  else
    p_files ← py_iter listed;
    foldM (λ acc p_file,
             append_path ← joined_path base_dir p_file;
             Ok (append_tag append_path file_type acc))
          data_files p_files.

(** One turn of [for snapshot in snapshots]. *)
Definition process_snapshot (mappings : manifest_mappings) (base_dir : string)
    (snapshot : yaml) : result processed_entity :=
  items ← py_items snapshot;
  '(file_types, data_fields) ←
    dict_pop "file_types" (apply_mappings (file_snapshots mappings) items);
  entries ← py_items file_types;
  data_files ← foldM (process_file_type base_dir) ∅ entries;
  Ok (FileEntity {| fields := data_fields; files := data_files |}).

(** [data["fields"]["ingest_note_links"][note_link["type"]] = note_link]
    for each link; the link types are strings, as in the manifest format. *)
Definition note_links_dict (links : list yaml) : result (list (string * yaml)) :=
  foldM (λ acc note_link,
           t ← py_getitem "type" note_link;
           k ← py_str t;
           Ok (items_set k note_link acc))
        [] links.

(** The note's own fields: its mapped items, and [ingest_note_links] when
    the note has [note_links]. *)
Definition note_own_fields (mappings : manifest_mappings)
    (note : list (string * yaml)) : result (gmap string yaml) :=
  let data_fields := apply_mappings (note_notes mappings) note in
  match items_get "note_links" note with
  | Some note_links =>
      links ← py_iter note_links;
      d ← note_links_dict links;
      Ok (<["ingest_note_links" := YMap d]> data_fields)
  | None => Ok data_fields
  end.

(** The snapshot and the version a note is paired with: those at its
    index, or two empty dictionaries when the index is out of range of
    either list. *)
Definition paired_records (snapshots versions : yaml) (notes_index : nat)
  : result (yaml * yaml) :=
  n_snapshots ← py_len snapshots;
  if (n_snapshots <=? notes_index)%nat then Ok (YMap [], YMap [])
  else
    n_versions ← py_len versions;
    if (n_versions <=? notes_index)%nat then Ok (YMap [], YMap [])
    else
      note_snapshot ← py_index snapshots notes_index;
      note_version ← py_index versions notes_index;
      Ok (note_snapshot, note_version).

(** [version_data["fields"]]: the version without its [notes], mapped.
    The [pop] changes the version inside [versions]; every index is used
    for one note only, so no later note sees the change. *)
Definition version_contribution (mappings : manifest_mappings)
    (note_version : yaml) : result (gmap string yaml) :=
  has_notes ← py_contains "notes" note_version;
  items ← py_items note_version;
  Ok (apply_mappings (note_versions mappings)
        (if has_notes : bool then items_remove "notes" items else items)).

(** [snapshot_data["fields"]]: the snapshot mapped, then [file_types]
    popped from the mapped fields when the snapshot itself has that key. *)
Definition snapshot_contribution (mappings : manifest_mappings)
    (note_snapshot : yaml) : result (gmap string yaml) :=
  items ← py_items note_snapshot;
  let snapshot_fields := apply_mappings (note_snapshots mappings) items in
  if items_has "file_types" items then
    '(_, popped) ← dict_pop "file_types" snapshot_fields;
    Ok popped
  else Ok snapshot_fields.

(** [data["fields"]] of a note after the two [update] calls. *)
Definition note_merged_fields (mappings : manifest_mappings)
    (snapshots versions : yaml) (notes_index : nat) (note : yaml)
  : result (gmap string yaml) :=
  note_items ← py_items note;
  own ← note_own_fields mappings note_items;
  '(note_snapshot, note_version) ←
    paired_records snapshots versions notes_index;
  version_fields ← version_contribution mappings note_version;
  let data_fields := dict_update own version_fields in
  snapshot_fields ← snapshot_contribution mappings note_snapshot;
  Ok (dict_update data_fields snapshot_fields).

(** The attachments of a note: the file group of the first one, and the
    list of the joined paths that replaces the field. *)
Definition attachment_group (base_dir : string) (attachments : yaml)
  : result (gmap string (list string)) :=
  if truthy attachments then
    first ← py_index attachments 0;
    append_path ← joined_path base_dir first;
    Ok (ensure_group append_path ∅)
  else Ok ∅.

Definition attachment_paths (base_dir : string) (attachments : yaml)
  : result (list yaml) :=
  listed ← py_iter attachments;
  foldM (λ acc attachment,
           p ← joined_path base_dir attachment;
           Ok ((acc ++ [YStr p])%list))
        [] listed.

(** One turn of [for note in notes]. *)
Definition process_note (mappings : manifest_mappings) (base_dir : string)
    (snapshots versions : yaml) (notes_index : nat) (note : yaml)
  : result processed_entity :=
  merged ← note_merged_fields mappings snapshots versions notes_index note;
  '(attachments, data_fields) ← dict_pop "attachments" merged;
  data_files ← attachment_group base_dir attachments;
  paths ← attachment_paths base_dir attachments;
  Ok (NoteEntity {| fields := <["attachments" := YList paths]> data_fields;
                    files := data_files |}).

Fixpoint process_snapshots (mappings : manifest_mappings) (base_dir : string)
    (snapshots : list yaml) : result (list processed_entity) :=
  match snapshots with
  | [] => Ok []
  | snapshot :: rest =>
      e ← process_snapshot mappings base_dir snapshot;
      es ← process_snapshots mappings base_dir rest;
      Ok (e :: es)
  end.

(** The loop over the notes; [notes_index] grows by one with every note. *)
Fixpoint process_notes (mappings : manifest_mappings) (base_dir : string)
    (snapshots versions : yaml) (notes_index : nat) (notes : list yaml)
  : result (list processed_entity) :=
  match notes with
  | [] => Ok []
  | note :: rest =>
      e ← process_note mappings base_dir snapshots versions notes_index note;
      es ← process_notes mappings base_dir snapshots versions
             (S notes_index) rest;
      Ok (e :: es)
  end.

(** The two loops that follow the [with] block. *)
Definition process_records (mappings : manifest_mappings) (base_dir : string)
    (snapshots notes versions : yaml) : result (list processed_entity) :=
  snapshot_list ← py_iter snapshots;
  file_entities ← process_snapshots mappings base_dir snapshot_list;
  note_list ← py_iter notes;
  note_entities ←
    process_notes mappings base_dir snapshots versions 0 note_list;
  Ok ((file_entities ++ note_entities)%list).

(** [_process_manifest_file(settings, path)]: the messages logged as
    errors and the outcome.  [open] stands before the [try], so only what
    [yaml.load] and the three subscripts raise is caught. *)
Definition _process_manifest_file (mappings : manifest_mappings)
    (fs : string → manifest_read) (path : string)
  : list string * result (list processed_entity) :=
  let base_dir := path_dirname path in
  match fs path with
  | OpenFails => ([], Raise IOError)
  | LoadFails => ([read_failure_message path], Ok [])
  | Loaded contents =>
      match read_contents contents with
      | Raise _ => ([read_failure_message path], Ok [])
      | Ok (snapshots, notes, versions) =>
          ([], process_records mappings base_dir snapshots notes versions)
      end
  end.

End Manifest.

(** ** Filter Scorer *)

Module FilterScorer.

(** [(resolution_order, work_path_template, item_type)] *)
Definition candidate : Type := Z * option string * string.

Definition resolution_order (c : candidate) : Z := c.1.1.
Definition work_path_template (c : candidate) : option string := c.1.2.
Definition item_type (c : candidate) : string := c.2.

(** Truth value of a template name: [None] and the empty name are false. *)
Definition template_present (t : option string) : bool :=
  match t with
  | Some name => negb (String.eqb name "")
  | None => false
  end.

(** The part of [s] before its first line feed, which [.] does not match. *)
Fixpoint first_line (s : string) : string :=
  match s with
  | EmptyString => EmptyString
  | String a s' =>
      if Ascii.eqb a "010"%char then EmptyString else String a (first_line s')
  end.

(** The groups of [re.match] on a parser string, for the pattern made of
    the delimiter [d], three greedy groups of any characters separated by
    colons, and [d] again: the match starts at the first character, the
    closing delimiter is the last one of the first line and the two colons
    are the last two before it. *)
Definition parse_filter (d : ascii) (s : string)
  : option (string * string * string) :=
  match s with
  | EmptyString => None
  | String a rest =>
      if Ascii.eqb a d then
        match rsplit_at d (first_line rest) with
        | Some (body, _) =>
            match rsplit_at ":"%char body with
            | Some (front, expected_result) =>
                match rsplit_at ":"%char front with
                | Some (method_name, expected_value) =>
                    Some (method_name, expected_value, expected_result)
                | None => None
                end
            | None => None
            end
        | None => None
        end
      else None
  end.

(** Stable sort on an integer key, as [list.sort(key=...)]: an element is
    put in front of the first element whose key is not smaller. *)
Fixpoint insert_by_key {A} (key : A → Z) (x : A) (l : list A) : list A :=
  match l with
  | [] => [x]
  | y :: l' =>
      if key x <=? key y then x :: y :: l' else y :: insert_by_key key x l'
  end.

Definition sort_by_key {A} (key : A → Z) (l : list A) : list A :=
  foldr (insert_by_key key) [] l.

(** [max([resolution_order for ... in template_item_type_mapping])] *)
Definition max_order (mapping : list candidate) : result Z :=
  match mapping with
  | [] => Raise ValueError
  | c :: rest =>
      Ok (foldl (λ m c', Z.max m (resolution_order c')) (resolution_order c) rest)
  end.

(** [elem[0] if not elem[1] else elem[0] - max_resolution_order] *)
Definition sort_key (max_resolution_order : Z) (elem : candidate) : Z :=
  if template_present (work_path_template elem)
  then resolution_order elem - max_resolution_order
  else resolution_order elem.

(** *** [_get_filtered_item_types_from_settings] *)

Section Scorer.

(** [self._get_item_type_info(settings, item_type)["manifest_field_filters"]]
    as the items of the configured dictionary: field name and parser
    string. *)
Variable manifest_field_filters : string → list (string * string).

(** [getattr(operator, name)(field_value, expected_value)] and
    [getattr(field_value, name)(expected_value)]: what Python finds under
    the name and what the call returns or raises. *)
Variable operator_call : string → yaml → string → result yaml.
Variable method_call : string → yaml → string → result yaml.

(** [field_value_match == type(field_value_match)(expected_result)] for a
    result that is not a boolean, false when the conversion raises. *)
Variable equals_coerced : yaml → string → bool.

(** The truth of [field_value_match] for one filter of a field whose
    value is true. *)
Definition filter_matches (field_value : yaml) (parser_value : string)
  : result bool :=
  by_operator ←
    match parse_filter "%"%char parser_value with
    | Some (name, expected_value, expected_result) =>
        r ← operator_call name field_value expected_value;
        Ok (r, expected_result)
    | None => Ok (YBool false, "not found")
    end;
  '(field_value_match, expected_result) ←
    match parse_filter "#"%char parser_value with
    | Some (name, expected_value, expected_result) =>
        r ← method_call name field_value expected_value;
        Ok (r, expected_result)
    | None => Ok by_operator
    end;
  Ok (match field_value_match with
      | YBool b => b
      | other => equals_coerced other expected_result
      end).

(** [manifest_file_fields.get(field)] *)
Definition fields_get (manifest_file_fields : yaml) (field : string)
  : result yaml :=
  match manifest_file_fields with
  | YMap m => Ok (default YNone (items_get field m))
  | _ => Raise TypeError
  end.

(** The loop over the filters of one item type: [match_score]. *)
Definition match_score (manifest_file_fields : yaml)
    (filters : list (string * string)) : result Z :=
  foldM (λ score filter,
           field_value ← fields_get manifest_file_fields filter.1;
           if truthy field_value then
             matched ← filter_matches field_value filter.2;
             Ok (if matched : bool then score + 1 else score)
           else Ok score)
        0 filters.

Definition has_filters (c : candidate) : bool :=
  match manifest_field_filters (item_type c) with
  | [] => false
  | _ => true
  end.

(** One turn of the loop of the manifest branch: the candidate with its
    resolution order updated, if at all. *)
Definition rescore (manifest_file_fields : yaml) (max_resolution_order : Z)
    (c : candidate) : result candidate :=
  let filters := manifest_field_filters (item_type c) in
  if template_present (work_path_template c) && has_filters c then
    score ← match_score manifest_file_fields filters;
    if score =? Z.of_nat (length filters)
    then Ok (resolution_order c - score, work_path_template c, item_type c)
    else Ok (resolution_order c + max_resolution_order,
             work_path_template c, item_type c)
  else Ok c.

(** The hook, on the list the base collector returns for the path and on
    the creation properties. *)
Definition _get_filtered_item_types_from_settings
    (template_item_type_mapping : list candidate)
    (creation_properties : gmap string yaml) : result (list candidate) :=
  max_resolution_order ← max_order template_item_type_mapping;
  filtered ←
    match creation_properties !! "manifest_file_fields" with
    | Some manifest_file_fields =>
        mapR (rescore manifest_file_fields max_resolution_order)
             template_item_type_mapping
    | None =>
        Ok (List.filter (λ c, negb (has_filters c)) template_item_type_mapping)
    end;
  Ok (sort_by_key (sort_key max_resolution_order) filtered).

(** No filter of a candidate raises: the score of a candidate that has a
    template and filters is computed. *)
Definition scores_cleanly (manifest_file_fields : yaml) (c : candidate) : Prop :=
  template_present (work_path_template c) = true →
  manifest_field_filters (item_type c) ≠ [] →
  is_Ok (match_score manifest_file_fields (manifest_field_filters (item_type c))).

End Scorer.

End FilterScorer.

(** ** The tracking database *)

Module Shotgun.

(** One filter of a query: [[field, relation, value]]. *)
Definition sg_filter : Type := (string * string * yaml)%type.

(** What a hook does that others can see: the error it logs and the
    round-trips it makes. *)
Inductive event : Type :=
| LogError (message : string)
| FindOne (entity_type : string) (filters : list sg_filter)
| Create (entity_type : string) (data : list (string * yaml))
| Update (entity_type : string) (entity_id : yaml) (data : list (string * yaml))
| Delete (entity_type : yaml) (entity_id : yaml).

(** The client over a database state [db].  A query reads the state; the
    other operations return the state they leave, also when they raise. *)
Record client (db : Type) : Type := {
  sg_find_one : db → string → list sg_filter → list string → result yaml;
  sg_create : db → string → list (string * yaml) → list string → result yaml * db;
  sg_update : db → string → yaml → list (string * yaml) → result unit * db;
  sg_delete : db → yaml → yaml → result bool * db
}.
Arguments sg_find_one {db} c.
Arguments sg_create {db} c.
Arguments sg_update {db} c.
Arguments sg_delete {db} c.

(** A computation that makes round-trips: from the database state to the
    events, the state left and the outcome. *)
Definition run (db A : Type) : Type := db → list event * db * result A.

Definition run_ret {db A} (a : A) : run db A := λ d, ([], d, Ok a).

Definition run_bind {db A B} (m : run db A) (f : A → run db B) : run db B :=
  λ d,
    let '(ev1, d1, r) := m d in
    match r with
    | Ok a => let '(ev2, d2, r2) := f a d1 in ((ev1 ++ ev2)%list, d2, r2)
    | Raise e => (ev1, d1, Raise e)
    end.

Notation "x ⇐ m ; k" := (run_bind m (λ x, k))
  (at level 20, m at level 100, k at level 200, only parsing, right associativity).

(** A step that touches nothing. *)
Definition pure_step {db A} (r : result A) : run db A := λ d, ([], d, r).

Definition log_error {db} (message : string) : run db unit :=
  λ d, ([LogError message], d, Ok ()).

(** [try: m except: handler] *)
Definition try_except {db A} (m : run db A) (handler : exn → run db A)
  : run db A :=
  λ d,
    let '(ev1, d1, r) := m d in
    match r with
    | Ok a => (ev1, d1, Ok a)
    | Raise e => let '(ev2, d2, r2) := handler e d1 in ((ev1 ++ ev2)%list, d2, r2)
    end.

(** The deletions among the events: entity type and id of each. *)
Definition delete_calls (events : list event) : list (yaml * yaml) :=
  omap (λ e, match e with
             | Delete entity_type entity_id => Some (entity_type, entity_id)
             | _ => None
             end) events.

Section Calls.
Context {db : Type} (sg : client db).

Definition call_find_one (entity_type : string) (filters : list sg_filter)
    (fields : list string) : run db yaml :=
  λ d, ([FindOne entity_type filters], d, sg_find_one sg d entity_type filters fields).

Definition call_create (entity_type : string) (data : list (string * yaml))
    (return_fields : list string) : run db yaml :=
  λ d, let '(r, d') := sg_create sg d entity_type data return_fields in
       ([Create entity_type data], d', r).

Definition call_update (entity_type : string) (entity_id : yaml)
    (data : list (string * yaml)) : run db unit :=
  λ d, let '(r, d') := sg_update sg d entity_type entity_id data in
       ([Update entity_type entity_id data], d', r).

Definition call_delete (entity_type entity_id : yaml) : run db bool :=
  λ d, let '(r, d') := sg_delete sg d entity_type entity_id in
       ([Delete entity_type entity_id], d', r).

End Calls.

End Shotgun.

(** ** Context Resolver *)

Module ContextResolver.
Import Shotgun Manifest.

(** The parts of a [sgtk.Context] the hook reads, [YNone] when absent. *)
Record context : Type := {
  project : yaml;
  entity : yaml;
  step : yaml;
  task : yaml
}.

(** What [publisher.get_template_by_name] finds under a name. *)
Inductive template_kind : Type :=
| NoTemplate
| PathTemplate
| StringTemplate.

Definition task_fields : list string := ["content"; "entity_type"; "id"].

Definition create_failure_message : string := "Failed to create Ingestion Task.".

Section Resolver.
Context {db : Type} (sg : client db).

Variable get_template_by_name : string → template_kind.

(** The collector of the base class:
    [super()._get_item_context_from_path(work_path_template, path,
    parent_item, default_entities)]. *)
Variable base_context : string → string → list yaml → result context.

(** The path handed to the base collector: the file name when the
    template is a string template. *)
Definition resolved_path (work_path_template path : string) : string :=
  match get_template_by_name work_path_template with
  | StringTemplate => path_basename path
  | _ => path
  end.

Definition step_query (entity_type : yaml) : list sg_filter :=
  [("short_name", "is", YStr "vendor"); ("entity_type", "is", entity_type)].

Definition step_fields : list string := ["entity_type"; "code"; "id"; "name"].

Definition task_query (ctx : context) (step_entity content : yaml)
  : list sg_filter :=
  [("step", "is", step_entity); ("entity", "is", entity ctx);
   ("project", "is", project ctx); ("content", "is", content)].

Definition task_data (ctx : context) (step_entity content : yaml)
  : list (string * yaml) :=
  [("step", step_entity); ("project", project ctx); ("entity", entity ctx);
   ("content", content); ("sg_status_list", YStr "na")].

(** The step to seed the context with: the one of the context, or the
    vendor step of the entity's type looked up in the database. *)
Definition find_step (ctx : context) : run db yaml :=
  if truthy (step ctx) then run_ret (step ctx)
  else
    entity_type ⇐ pure_step (py_getitem "type" (entity ctx));
    call_find_one sg "Step" (step_query entity_type) step_fields.

(** [step_entity["name"] if step_entity.get("name") else step_entity["code"]] *)
Definition step_content (step_entity : yaml) : result yaml :=
  name ← match step_entity with
         | YMap m => Ok (default YNone (items_get "name" m))
         | _ => Raise TypeError
         end;
  if truthy name then py_getitem "name" step_entity
  else py_getitem "code" step_entity.

(** The task under the step: found, or created; its status set to [na];
    the result is the list [default_entities] for the second resolution. *)
Definition vendor_task (ctx : context) (step_entity : yaml) : run db (list yaml) :=
  content ⇐ pure_step (step_content step_entity);
  found ⇐ call_find_one sg "Task" (task_query ctx step_entity content)
            task_fields;
  task_entity ⇐
    (if truthy found then run_ret found
     else
       created ⇐ call_create sg "Task" (task_data ctx step_entity content)
                   task_fields;
       _ ⇐ (if truthy created then run_ret ()
            else log_error create_failure_message);
       run_ret created);
  if truthy task_entity then
    _ ⇐ try_except
          (task_id ⇐ pure_step (py_getitem "id" task_entity);
           call_update sg "Task" task_id [("sg_status_list", YStr "na")])
          (λ _, run_ret ());
    run_ret [step_entity; task_entity]
  else run_ret [step_entity].

Definition _get_item_context_from_path (work_path_template path : string)
    (default_entities : list yaml) : run db context :=
  let path := resolved_path work_path_template path in
  ctx ⇐ pure_step (base_context work_path_template path default_entities);
  if truthy (entity ctx) then
    step_entity ⇐ find_step ctx;
    if truthy step_entity then
      seeds ⇐ vendor_task ctx step_entity;
      pure_step (base_context work_path_template path seeds)
    else run_ret ctx
  else run_ret ctx.

(** A resolution that comes to the creation of the task: the first
    resolution gives an entity and no step, the vendor step is found, and
    no task is found under it. *)
Record reaches_creation (work_path_template path : string)
    (default_entities : list yaml) (d : db) (ctx : context)
    (step_entity content : yaml) : Prop := {
  first_resolution :
    base_context work_path_template (resolved_path work_path_template path)
      default_entities = Ok ctx;
  has_entity : truthy (entity ctx) = true;
  has_no_step : truthy (step ctx) = false;
  step_found :
    ∃ entity_type,
      py_getitem "type" (entity ctx) = Ok entity_type
      ∧ sg_find_one sg d "Step" (step_query entity_type) step_fields
        = Ok step_entity;
  step_is_true : truthy step_entity = true;
  step_has_content : step_content step_entity = Ok content;
  task_not_found :
    ∃ found,
      sg_find_one sg d "Task" (task_query ctx step_entity content) task_fields
      = Ok found
      ∧ truthy found = false
}.

End Resolver.

End ContextResolver.

(** ** Entity Linker: [undo] *)

Module IngestFiles.
Import Shotgun Manifest.

Definition UNLINKED_ENTITY_TYPE : string := "(UNLINKED)".

(** The parts of a publish item the hook reads and writes. *)
Record item : Type := {
  name : string;
  properties : gmap string yaml;
  context_project : yaml;
  context_entity : yaml
}.

Definition set_properties (props : gmap string yaml) (it : item) : item :=
  {| name := name it; properties := props;
     context_project := context_project it;
     context_entity := context_entity it |}.

(** [item.properties[k]] *)
Definition property (k : string) (it : item) : result yaml :=
  match properties it !! k with
  | Some v => Ok v
  | None => Raise (KeyError k)
  end.

Section Linker.
Context {db : Type} (sg : client db).

(** [task_settings['snapshot_type_settings'].value] *)
Variable snapshot_type_settings : gmap string string.

(** The state a hook call works on: the database and the item. *)
Definition world : Type := (db * item)%type.

(** The client seen from a hook call: the item is out of its reach. *)
Definition world_client : client world := {|
  sg_find_one := λ w, sg_find_one sg w.1;
  sg_create := λ w entity_type data return_fields,
    let '(r, d) := sg_create sg w.1 entity_type data return_fields in (r, (d, w.2));
  sg_update := λ w entity_type entity_id data,
    let '(r, d) := sg_update sg w.1 entity_type entity_id data in (r, (d, w.2));
  sg_delete := λ w entity_type entity_id,
    let '(r, d) := sg_delete sg w.1 entity_type entity_id in (r, (d, w.2))
|}.

Definition get_item : run world item := λ w, ([], w, Ok w.2).

(** [item.properties[k] = v] *)
Definition set_property (k : string) (v : yaml) : run world unit :=
  λ w, ([], (w.1, set_properties (<[k := v]> (properties w.2)) w.2), Ok ()).

(** [item.properties.pop(k)] *)
Definition pop_property (k : string) : run world yaml :=
  λ w, match properties w.2 !! k with
       | Some v => ([], (w.1, set_properties (delete k (properties w.2)) w.2), Ok v)
       | None => ([], w, Raise (KeyError k))
       end.

Definition snapshot_type_missing : string :=
  "snapshot_type not found in item fields!".

(** [_resolve_linked_entity_type]: the entity type configured for the
    snapshot type of the item, or the one under the star. *)
Definition _resolve_linked_entity_type (it : item) : result string :=
  item_fields ← property "fields" it;
  has_type ← py_contains "snapshot_type" item_fields;
  if negb has_type then Raise (PyException snapshot_type_missing)
  else
    snapshot_type ← py_getitem "snapshot_type" item_fields;
    let under_star :=
      match snapshot_type_settings !! "*" with
      | Some t => Ok t
      | None => Raise (KeyError "*")
      end in
    match snapshot_type with
    | YStr s =>
        match snapshot_type_settings !! s with
        | Some t => Ok t
        | None => under_star
        end
    | YList _ | YMap _ => Raise TypeError
    | _ => under_star
    end.

(** The filters that depend on the entity of the item's context. *)
Definition context_filters (it : item) (linked_entity_type : string)
  : result (list sg_filter) :=
  if truthy (context_entity it) then
    entity_type ← py_getitem "type" (context_entity it);
    match entity_type with
    | YStr "Shot" => Ok [("sg_shot", "is", context_entity it)]
    | YStr "Sequence" => Ok [("sg_sequence", "is", context_entity it)]
    | YStr "Asset" =>
        Ok ((if String.eqb linked_entity_type "Asset"
             then [("parents", "is", context_entity it)] else []) ++
            (if String.eqb linked_entity_type "Element"
             then [("assets", "in", context_entity it)] else []))%list
    | _ => Ok []
    end
  else Ok [].

(** [_find_linked_entity]: the linked entity of the item's context, or
    [None]; the item's [linked_entity_type] is set on the way. *)
Definition _find_linked_entity (fields : list string) : run world yaml :=
  it ⇐ get_item;
  linked_entity_type ⇐ pure_step (_resolve_linked_entity_type it);
  _ ⇐ set_property "linked_entity_type" (YStr linked_entity_type);
  if String.eqb linked_entity_type UNLINKED_ENTITY_TYPE then run_ret YNone
  else
    entity_name ⇐ pure_step (property "publish_linked_entity_name" it);
    by_context ⇐ pure_step (context_filters it linked_entity_type);
    item_fields ⇐ pure_step (property "fields" it);
    snapshot_type ⇐ pure_step (py_getitem "snapshot_type" item_fields);
    call_find_one world_client linked_entity_type
      ([("project", "is", context_project it); ("code", "is", entity_name)]
       ++ by_context
       ++ (if String.eqb linked_entity_type "Asset"
           then [("sg_asset_type", "is", snapshot_type)] else []))%list
      (fields ++ ["shots"; "code"; "id"])%list.

(** The condition of the deletion:
    [linked_entity_data and linked_entity and
     len(linked_entity["sg_published_files"]) == 0] *)
Definition nothing_published (linked_entity_data linked_entity : yaml)
  : result bool :=
  if truthy linked_entity_data && truthy linked_entity then
    published ← py_getitem "sg_published_files" linked_entity;
    n ← py_len published;
    Ok (n =? 0)%nat
  else Ok false.

Definition delete_failure_message (linked_entity_type : yaml) (item_name : string)
  : string :=
  "Failed to delete "
  +:+ match linked_entity_type with YStr t => t | _ => "" end
  +:+ " Entity for " +:+ item_name.

(** The body of the [try] block of [undo]: the deletion of the entity the
    item carries, then the removal of the property. *)
Definition delete_linked_entity (linked_entity_data : yaml) : run world unit :=
  entity_type ⇐ pure_step (py_getitem "type" linked_entity_data);
  entity_id ⇐ pure_step (py_getitem "id" linked_entity_data);
  _ ⇐ call_delete world_client entity_type entity_id;
  _ ⇐ pop_property "ingest_entity_data";
  run_ret ().

(** The body of its [except] clause. *)
Definition report_delete_failure : run world unit :=
  failed ⇐ get_item;
  linked_entity_type ⇐ pure_step (property "linked_entity_type" failed);
  log_error (delete_failure_message linked_entity_type (name failed)).

(** [undo(task_settings, item)] *)
Definition undo : run world unit :=
  it ⇐ get_item;
  match properties it !! "ingest_entity_data" with
  | None => run_ret ()
  | Some linked_entity_data =>
      linked_entity ⇐ _find_linked_entity ["sg_published_files"];
      proceed ⇐ pure_step (nothing_published linked_entity_data linked_entity);
      if proceed : bool then
        try_except (delete_linked_entity linked_entity_data)
                   (λ _, report_delete_failure)
      else run_ret ()
  end.

(** A computation that issues no deletion, leaves the database as it is
    and leaves the item its name and its property under [key]. *)
Definition spares (key : string) {A} (m : run world A) : Prop :=
  ∀ w events w' r,
    m w = (events, w', r) →
    delete_calls events = []
    ∧ w'.1 = w.1
    ∧ properties w'.2 !! key = properties w.2 !! key
    ∧ name w'.2 = name w.2.

End Linker.

End IngestFiles.

(** ** Terms used to state the properties of the Filter Scorer *)

Module FilterTerms.
Import FilterScorer.

(** The character [c] occurs in [s]. *)
Fixpoint occurs (c : ascii) (s : string) : bool :=
  match s with
  | EmptyString => false
  | String a s' => Ascii.eqb a c || occurs c s'
  end.

(** The parser string of a filter written in full: delimiter, method
    name, expected value, expected result, delimiter. *)
Definition parser_string (d : ascii) (method_name expected_value
    expected_result : string) : string :=
  String d (method_name +:+ ":" +:+ expected_value +:+ ":" +:+ expected_result
            +:+ String d EmptyString).

(** The manifest fields hold a true value under the field of the filter:
    the filter is looked at. *)
Definition field_is_true (manifest_file_fields : yaml)
    (filter : string * string) : bool :=
  match fields_get manifest_file_fields filter.1 with
  | Ok v => truthy v
  | Raise _ => false
  end.


Section Scorer.

Variable manifest_field_filters : string → list (string * string).
Variable operator_call : string → yaml → string → result yaml.
Variable method_call : string → yaml → string → result yaml.
Variable equals_coerced : yaml → string → bool.

(** What the branch on the creation properties appends, before the sort. *)
Definition appended_by (mapping : list candidate) (props : gmap string yaml)
    (M : Z) (appended : list candidate) : Prop :=
  match props !! "manifest_file_fields" with
  | Some fields =>
      mapR (rescore manifest_field_filters operator_call method_call
              equals_coerced fields M) mapping = Ok appended
  | None =>
      appended
      = List.filter (λ c, negb (has_filters manifest_field_filters c)) mapping
  end.

End Scorer.

End FilterTerms.

(** ** Terms used to state the properties of the Manifest Parser *)

Module ManifestTerms.
Import Manifest.

Definition is_file_entity (e : processed_entity) : bool :=
  match e with
  | FileEntity _ => true
  | NoteEntity _ => false
  end.

Definition is_note_entity (e : processed_entity) : bool :=
  match e with
  | FileEntity _ => false
  | NoteEntity _ => true
  end.

(** The group of [group_key] carries the tag [tag]. *)
Definition tagged (data_files : gmap string (list string))
    (group_key tag : string) : Prop :=
  ∃ tags, data_files !! group_key = Some tags ∧ tag ∈ tags.

(** No group is without tag, and every tag is one of [seen]. *)
Definition groups_within (seen : list string)
    (acc : gmap string (list string)) : Prop :=
  ∀ q tags, acc !! q = Some tags → tags ≠ [] ∧ ∀ tag, tag ∈ tags → tag ∈ seen.

(** The file groups of an entity. *)
Definition groups_of (e : processed_entity) : gmap string (list string) :=
  match e with
  | FileEntity data => files data
  | NoteEntity data => files data
  end.

End ManifestTerms.

(** ** Item Factory: the tags of a file group *)

Module TagLookup.
Import Shotgun.

Definition tag_fields : list string := ["name"; "id"; "code"; "type"].

Definition tag_query (tag_name : string) : list sg_filter :=
  [("name", "is", YStr tag_name)].

Definition tag_failure_message (tag_name : string) : string :=
  "Failed to create Tag: " +:+ tag_name.

(** The errors logged among the events. *)
Definition logged_errors (events : list event) : list string :=
  omap (λ e, match e with LogError message => Some message | _ => None end)
       events.

(** The creations among the events: the entity type of each. *)
Definition create_calls (events : list event) : list string :=
  omap (λ e, match e with Create entity_type _ => Some entity_type | _ => None end)
       events.

Section Tags.
Context {db : Type} (sg : client db).

(** One turn of the loop over the tag names: what it appends, if
    anything.  The tag is looked up; when it is not found it is created,
    and a creation that raises is logged. *)
Definition find_or_create_tag (tag_name : string) : run db (option yaml) :=
  tag_entity ⇐ call_find_one sg "Tag" (tag_query tag_name) tag_fields;
  if truthy tag_entity then run_ret (Some tag_entity)
  else
    try_except
      (new_entity ⇐ call_create sg "Tag" [("name", YStr tag_name)] [];
       run_ret (Some new_entity))
      (λ _, _ ⇐ log_error (tag_failure_message tag_name); run_ret None).

(** [_query_associated_tags(tags)] *)
Fixpoint _query_associated_tags (tags : list string) : run db (list yaml) :=
  match tags with
  | [] => run_ret []
  | tag_name :: rest =>
      appended ⇐ find_or_create_tag tag_name;
      tag_entities ⇐ _query_associated_tags rest;
      run_ret (match appended with
               | Some tag_entity => tag_entity :: tag_entities
               | None => tag_entities
               end)
  end.

(** The lookup of a tag never raises, whatever the state of the
    database. *)
Definition tag_lookup_returns : Prop :=
  ∀ d tag_name, is_Ok (sg_find_one sg d "Tag" (tag_query tag_name) tag_fields).

End Tags.

End TagLookup.

(** ** Item Factory: the fields of an item *)

Module ItemFields.
Import Manifest FilterScorer.

(** The parts of a collected item that the resolution of its fields
    reads: its properties, the task of its context ([YNone] when there is
    none) and its attributes, as [getattr(item, name)] finds them. *)
Record collected_item : Type := {
  item_properties : gmap string yaml;
  context_task : yaml;
  item_attribute : string → result yaml
}.

(** The group of [re.match] on a default value, for the pattern made of
    a percent sign, a greedy group and a percent sign: the name between
    the first character and the last percent sign of the first line. *)
Definition attribute_reference (value : string) : option string :=
  match value with
  | EmptyString => None
  | String c rest =>
      if Ascii.eqb c "%"%char then
        match rsplit_at "%"%char (first_line rest) with
        | Some (attribute, _) => Some attribute
        | None => None
        end
      else None
  end.

(** [fields.update(other)] with the items of [other]. *)
Definition update_with (fields : gmap string yaml)
    (other : list (string * yaml)) : gmap string yaml :=
  foldl (λ d kv, <[kv.1 := kv.2]> d) fields other.

Section Fields.

(** [urllib.quote(name.replace(" ", "_").lower(), safe='')] *)
Variable default_name : string → string.

(** [item_info["default_snapshot_type"]] and the items of
    [item_info["default_fields"]], both always there once
    [_get_item_type_info] has set its defaults. *)
Variable default_snapshot_type : yaml.
Variable default_fields : list (string * string).

(** The name is dropped when it is the one derived from the task. *)
Definition drop_task_name (it : collected_item) (fields : gmap string yaml)
  : result (gmap string yaml) :=
  if truthy (context_task it) then
    name_field ← py_getitem "name" (context_task it);
    current ← match fields !! "name" with
              | Some v => Ok v
              | None => Raise (KeyError "name")
              end;
    task_name ← py_str name_field;
    match current with
    | YStr s =>
        if String.eqb s (default_name task_name)
        then Ok (delete "name" fields) else Ok fields
    | _ => Ok fields
    end
  else Ok fields.

(** [fields.update(item.properties.manifest_file_fields)] when the item
    has the property. *)
Definition restore_manifest_fields (it : collected_item)
    (fields : gmap string yaml) : result (gmap string yaml) :=
  match item_properties it !! "manifest_file_fields" with
  | Some manifest_file_fields =>
      items ← py_items manifest_file_fields;
      Ok (update_with fields items)
  | None => Ok fields
  end.

Definition inject_snapshot_type (fields : gmap string yaml)
  : gmap string yaml :=
  match fields !! "snapshot_type" with
  | Some _ => fields
  | None => <["snapshot_type" := default_snapshot_type]> fields
  end.

(** One turn of the loop over the default fields. *)
Definition inject_default (it : collected_item) (fields : gmap string yaml)
    (entry : string * string) : result (gmap string yaml) :=
  match fields !! entry.1 with
  | Some _ => Ok fields
  | None =>
      match attribute_reference entry.2 with
      | Some attribute =>
          v ← item_attribute it attribute;
          Ok (<[entry.1 := v]> fields)
      | None => Ok (<[entry.1 := YStr entry.2]> fields)
      end
  end.

(** [_resolve_item_fields(settings, item)], on the fields the base
    collector resolved. *)
Definition _resolve_item_fields (it : collected_item)
    (base_fields : gmap string yaml) : result (gmap string yaml) :=
  fields ← drop_task_name it base_fields;
  fields ← restore_manifest_fields it fields;
  foldM (inject_default it) (inject_snapshot_type fields) default_fields.

End Fields.

End ItemFields.

(** ** Sample data *)

Module Samples.
Import FieldMapper Manifest.

Definition sample_snapshot : list (string * yaml) :=
  [("id", YInt 1002060803); ("name", YStr "egypt_riser_a");
   ("user", YStr "rsariel"); ("version", YInt 1);
   ("file_types",
    YMap [("main",
           YMap [("files",
                  YList [YMap [("path", YStr "maya/egypt_riser_a_hi_v001.mb")]])])])].

Definition sample_version : list (string * yaml) :=
  [("id", YInt 77); ("name", YStr "egypt_riser_a_v001");
   ("user", YStr "client"); ("notes", YList [YInt 5])].

(** A note with links and an empty list of attachments. *)
Definition sample_note : list (string * yaml) :=
  [("id", YInt 5); ("body", YStr "push the silhouette");
   ("name", YStr "kickoff notes"); ("note_type", YStr "kickoff");
   ("user", YStr "supervisor");
   ("note_links",
    YList [YMap [("type", YStr "Version"); ("name", YStr "egypt_riser_a_v001")]]);
   ("attachments", YList [])].

(** Its own fields: the mapped items and the links by type. *)
Definition sample_note_own : gmap string yaml :=
  <["ingest_note_links" :=
      YMap [("Version",
             YMap [("type", YStr "Version"); ("name", YStr "egypt_riser_a_v001")])]]>
    (apply_mappings (note_notes DEFAULT_MANIFEST_SG_MAPPINGS) sample_note).

(** Its fields once merged with those of the sample version and of the
    sample snapshot. *)
Definition sample_note_merged : gmap string yaml :=
  dict_update
    (dict_update sample_note_own
       (apply_mappings (note_versions DEFAULT_MANIFEST_SG_MAPPINGS)
          (items_remove "notes" sample_version)))
    (delete "file_types"
       (apply_mappings (note_snapshots DEFAULT_MANIFEST_SG_MAPPINGS)
          sample_snapshot)).

(** A note that has no [attachments] key at all. *)
Definition bare_note : list (string * yaml) :=
  [("id", YInt 6); ("body", YStr "approved"); ("note_type", YStr "dailies")].

Definition sample_manifest : yaml :=
  YMap [("snapshots", YList [YMap sample_snapshot]);
        ("notes", YList [YMap sample_note]);
        ("versions", YList [YMap sample_version])].

Definition bare_manifest : yaml :=
  YMap [("snapshots", YList [YMap sample_snapshot]);
        ("notes", YList [YMap sample_note; YMap bare_note]);
        ("versions", YList [YMap sample_version])].

(** A delivery area: two packages that load, one whose manifest cannot be
    opened, and nothing that loads anywhere else. *)
Definition sample_fs (path : string) : manifest_read :=
  if String.eqb path "/deliveries/pkg/manifest.yaml" then Loaded sample_manifest
  else if String.eqb path "/deliveries/bare/manifest.yaml" then Loaded bare_manifest
  else if String.eqb path "/deliveries/locked/manifest.yaml" then OpenFails
  else LoadFails.

(** Two item types gated by two filters each, and one without filters. *)
Definition sample_filters (item_type : string) : list (string * string) :=
  if String.eqb item_type "maya.model" then
    [("snapshot_type", "%eq:maya_model:True%");
     ("manifest_name", "#startswith:egypt:True#")]
  else if String.eqb item_type "maya.rig" then
    [("snapshot_type", "%eq:maya_rig:True%");
     ("manifest_name", "#startswith:egypt:True#")]
  else [].

(** [operator.eq] on a string, and nothing else. *)
Definition sample_operator (name : string) (field_value : yaml)
    (expected_value : string) : result yaml :=
  if String.eqb name "eq" then
    match field_value with
    | YStr s => Ok (YBool (String.eqb s expected_value))
    | _ => Ok (YBool false)
    end
  else Raise TypeError.

(** [str.startswith], and nothing else. *)
Definition sample_method (name : string) (field_value : yaml)
    (expected_value : string) : result yaml :=
  if String.eqb name "startswith" then
    match field_value with
    | YStr s => Ok (YBool (String.prefix expected_value s))
    | _ => Raise TypeError
    end
  else Raise TypeError.

Definition sample_equals (value : yaml) (expected_result : string) : bool :=
  false.

Definition sample_mapping : list FilterScorer.candidate :=
  [(1, Some "maya_model_work", "maya.model");
   (2, Some "maya_rig_work", "maya.rig");
   (3, None, "file.generic")].

Definition sample_fields : yaml :=
  YMap [("snapshot_type", YStr "maya_model");
        ("manifest_name", YStr "egypt_riser_a")].

Definition manifest_properties : gmap string yaml :=
  {["manifest_file_fields" := sample_fields]}.

(** A context with an asset and a project and no step, whatever the seeds;
    with seeds, the first one is the step and the second one the task. *)
Definition sample_asset : yaml :=
  YMap [("type", YStr "Asset"); ("id", YInt 12); ("name", YStr "egypt_riser_a")].

Definition sample_project : yaml :=
  YMap [("type", YStr "Project"); ("id", YInt 3)].

Definition sample_base_context (work_path_template path : string)
    (default_entities : list yaml) : result ContextResolver.context :=
  Ok {| ContextResolver.project := sample_project;
        ContextResolver.entity := sample_asset;
        ContextResolver.step := default YNone (default_entities !! 0%nat);
        ContextResolver.task := default YNone (default_entities !! 1%nat) |}.

Definition sample_templates (name : string) : ContextResolver.template_kind :=
  if String.eqb name "ingest_note_name" then ContextResolver.StringTemplate
  else ContextResolver.PathTemplate.

Definition vendor_step : yaml :=
  YMap [("type", YStr "Step"); ("id", YInt 7); ("code", YStr "vendor");
        ("entity_type", YStr "Asset")].

(** A database kept as the list of its tasks.  It knows the vendor step,
    finds a task when it holds one, and refuses every creation. *)
Definition refusing_client : Shotgun.client (list yaml) := {|
  Shotgun.sg_find_one := λ tasks entity_type filters fields,
    if String.eqb entity_type "Step" then Ok vendor_step
    else Ok (default YNone (tasks !! 0%nat));
  Shotgun.sg_create := λ tasks entity_type data return_fields,
    (Raise Fault, tasks);
  Shotgun.sg_update := λ tasks entity_type entity_id data, (Ok (), tasks);
  Shotgun.sg_delete := λ tasks entity_type entity_id, (Ok true, tasks)
|}.

(** A database kept as the list of its entities: a query finds the first
    entity of the type, a deletion removes the entity of the id. *)
Definition has_type (entity_type : string) (e : yaml) : bool :=
  match e with
  | YMap m =>
      match items_get "type" m with
      | Some (YStr t) => String.eqb t entity_type
      | _ => false
      end
  | _ => false
  end.

Definition has_id (entity_id : yaml) (e : yaml) : bool :=
  match e, entity_id with
  | YMap m, YInt i =>
      match items_get "id" m with
      | Some (YInt j) => i =? j
      | _ => false
      end
  | _, _ => false
  end.

Definition listing_client : Shotgun.client (list yaml) := {|
  Shotgun.sg_find_one := λ entities entity_type filters fields,
    Ok (default YNone (head (List.filter (has_type entity_type) entities)));
  Shotgun.sg_create := λ entities entity_type data return_fields,
    (Ok (YMap data), (entities ++ [YMap data])%list);
  Shotgun.sg_update := λ entities entity_type entity_id data, (Ok (), entities);
  Shotgun.sg_delete := λ entities entity_type entity_id,
    (Ok true, List.filter (λ e, negb (has_id entity_id e)) entities)
|}.

Definition linked_asset (published : list yaml) : yaml :=
  YMap [("type", YStr "Asset"); ("id", YInt 40); ("code", YStr "egypt_riser_a");
        ("sg_published_files", YList published)].

Definition linking_settings : gmap string string := {["*" := "Asset"]}.

(** An item that went through the publish and carries the entity made
    for it. *)
Definition linked_item : IngestFiles.item := {|
  IngestFiles.name := "egypt_riser_a_hi_v001.mb";
  IngestFiles.properties :=
    list_to_map
      [("fields", YMap [("snapshot_type", YStr "maya_model")]);
       ("publish_linked_entity_name", YStr "egypt_riser_a");
       ("ingest_entity_data", YMap [("type", YStr "Asset"); ("id", YInt 40)])];
  IngestFiles.context_project := sample_project;
  IngestFiles.context_entity := sample_asset
|}.

(** The same delivery area with two more packages: one whose manifest has
    notes and no snapshots, one whose second snapshot has no file types. *)
Definition wider_fs (path : string) : manifest_read :=
  if String.eqb path "/deliveries/notes_only/manifest.yaml"
  then Loaded (YMap [("notes", YList [YMap sample_note])])
  else if String.eqb path "/deliveries/untyped/manifest.yaml"
  then Loaded (YMap [("snapshots",
                      YList [YMap sample_snapshot;
                             YMap [("id", YInt 9); ("name", YStr "late")]])])
  else sample_fs path.

(** A snapshot with an image sequence and a scene file. *)
Definition plate_spec : list (string * yaml) :=
  [("frame_range", YStr "1001-1002");
   ("files", YList [YMap [("path", YStr "plates/sh010.1001.exr")];
                    YMap [("path", YStr "plates/sh010.1002.exr")]])].

Definition scene_spec : list (string * yaml) :=
  [("files", YList [YMap [("path", YStr "maya/sh010_layout_v001.mb")]])].

Definition sequence_file_types : list (string * yaml) :=
  [("plate", YMap plate_spec); ("main", YMap scene_spec)].

Definition sequence_snapshot : list (string * yaml) :=
  [("id", YInt 1002060804); ("name", YStr "sh010_plate");
   ("file_types", YMap sequence_file_types)].

(** A client like the refusing one whose creation returns nothing, and
    one that creates the task and then fails to update it. *)
Definition silent_client : Shotgun.client (list yaml) := {|
  Shotgun.sg_find_one := Shotgun.sg_find_one refusing_client;
  Shotgun.sg_create := λ tasks entity_type data return_fields, (Ok YNone, tasks);
  Shotgun.sg_update := Shotgun.sg_update refusing_client;
  Shotgun.sg_delete := Shotgun.sg_delete refusing_client
|}.

Definition vendor_task : yaml :=
  YMap [("type", YStr "Task"); ("id", YInt 501); ("content", YStr "vendor")].

Definition stale_client : Shotgun.client (list yaml) := {|
  Shotgun.sg_find_one := Shotgun.sg_find_one refusing_client;
  Shotgun.sg_create := λ tasks entity_type data return_fields,
    (Ok vendor_task, (tasks ++ [vendor_task])%list);
  Shotgun.sg_update := λ tasks entity_type entity_id data, (Raise Fault, tasks);
  Shotgun.sg_delete := Shotgun.sg_delete refusing_client
|}.

Definition first_context : ContextResolver.context :=
  {| ContextResolver.project := sample_project;
     ContextResolver.entity := sample_asset;
     ContextResolver.step := YNone;
     ContextResolver.task := YNone |}.

(** A database without vendor step, and a base collector that finds no
    entity in the path. *)
Definition stepless_client : Shotgun.client (list yaml) := {|
  Shotgun.sg_find_one := λ tasks entity_type filters fields, Ok YNone;
  Shotgun.sg_create := Shotgun.sg_create refusing_client;
  Shotgun.sg_update := Shotgun.sg_update refusing_client;
  Shotgun.sg_delete := Shotgun.sg_delete refusing_client
|}.

Definition project_context : ContextResolver.context :=
  {| ContextResolver.project := sample_project;
     ContextResolver.entity := YNone;
     ContextResolver.step := YNone;
     ContextResolver.task := YNone |}.

Definition project_base_context (work_path_template path : string)
    (default_entities : list yaml) : result ContextResolver.context :=
  Ok project_context.

(** A database that refuses deletions. *)
Definition locked_client : Shotgun.client (list yaml) := {|
  Shotgun.sg_find_one := Shotgun.sg_find_one listing_client;
  Shotgun.sg_create := Shotgun.sg_create listing_client;
  Shotgun.sg_update := Shotgun.sg_update listing_client;
  Shotgun.sg_delete := λ entities entity_type entity_id, (Raise Fault, entities)
|}.

(** The settings the hook ships with: every snapshot type is unlinked. *)
Definition default_linking_settings : gmap string string :=
  {["*" := IngestFiles.UNLINKED_ENTITY_TYPE]}.


End Samples.

(** * Properties *)

(** ** Field Mapper *)

Module FieldMapperFacts.
Import FieldMapper.

Lemma is_target_lookup (table : gmap string string) (v : string) :
  is_target table v ↔ ∃ k, table !! k = Some v.
Proof.
  unfold is_target. rewrite list_elem_of_fmap. split.
  - intros [[k v'] [-> Hin]]. exists k. by apply elem_of_map_to_list in Hin.
  - intros [k Hk]. exists (k, v). split; [done|]. by apply elem_of_map_to_list.
Qed.

Lemma table_injective_lookup (table : gmap string string) (k1 k2 v : string) :
  table_injective table →
  table !! k1 = Some v → table !! k2 = Some v → k1 = k2.
Proof.
  unfold table_injective. intros Hnd H1 H2.
  apply elem_of_map_to_list in H1, H2.
  apply list_elem_of_lookup in H1 as [i1 H1], H2 as [i2 H2].
  assert (i1 = i2) as ->.
  { eapply NoDup_lookup; [exact Hnd| |];
      rewrite list_lookup_fmap; [rewrite H1|rewrite H2]; done. }
  congruence.
Qed.

(** The inverse table holds the swapped pairs, and nothing else. *)
Lemma inverse_table_Some (table : gmap string string) (v k : string) :
  inverse_table table !! v = Some k → table !! k = Some v.
Proof.
  unfold inverse_table. intros H.
  apply elem_of_list_to_map_2 in H.
  apply list_elem_of_fmap in H as [[k' v'] [Heq Hin]].
  simpl in Heq. injection Heq as -> ->. by apply elem_of_map_to_list.
Qed.

Lemma inverse_table_None (table : gmap string string) (v : string) :
  inverse_table table !! v = None ↔ ¬ is_target table v.
Proof.
  unfold inverse_table, is_target.
  rewrite <- not_elem_of_list_to_map.
  rewrite <- list_fmap_compose.
  assert (Heq : (map_to_list table).*2
                = (fst ∘ prod_swap) <$> map_to_list table).
  { apply list_fmap_ext. by intros ? [? ?]. }
  by rewrite Heq.
Qed.

(** C8, as amended: for a table in which no two keys share a value, mapping
    a key forward and back through the inverse table returns the key when
    the key is in the table, and also when it is absent from the table and
    is not itself the image of a key. *)
Theorem roundtrip_of_injective_table (table : gmap string string) (k : string) :
  table_injective table →
  is_Some (table !! k) ∨ ¬ is_target table k →
  unmapped_key table (mapped_key table k) = k.
Proof.
  intros Hinj Hk. unfold unmapped_key, mapped_key at 2.
  destruct (table !! k) as [v|] eqn:Hv.
  - unfold mapped_key.
    destruct (inverse_table table !! v) as [k'|] eqn:Hinv.
    + apply inverse_table_Some in Hinv.
      by apply (table_injective_lookup table k' k v).
    + apply inverse_table_None in Hinv. exfalso. apply Hinv.
      apply is_target_lookup. eauto.
  - destruct Hk as [[? ?]|Hk]; [done|].
    apply inverse_table_None in Hk. unfold mapped_key. by rewrite Hk.
Qed.

Lemma roundtrip_of_injective_table_witness :
  unmapped_key default_snapshots_table
    (mapped_key default_snapshots_table "id") = "id"
  ∧ unmapped_key default_snapshots_table
      (mapped_key default_snapshots_table "file_types") = "file_types".
Proof.
  split; apply roundtrip_of_injective_table.
  - refine (bool_decide_unpack _ _); vm_compute; exact I.
  - left. vm_compute. eauto.
  - refine (bool_decide_unpack _ _); vm_compute; exact I.
  - right. refine (bool_decide_unpack _ _); vm_compute; exact I.
Defined.

(** C8, as stated, fails: [sg_snapshot_id] is not a key of the default
    snapshots table, so it is left unchanged on the way forward, but it is
    the image of [id], so the inverse table sends it to [id]. *)
Lemma roundtrip_fails_on_a_target_key :
  ¬ (∀ (table : gmap string string) (k : string),
       unmapped_key table (mapped_key table k) = k).
Proof.
  intros H. specialize (H default_snapshots_table "sg_snapshot_id").
  vm_compute in H. discriminate H.
Qed.

End FieldMapperFacts.

(** ** Manifest Parser *)

Module ManifestFacts.
Import FieldMapper Manifest.

Ltac run_result :=
  cbn [mbind result_bind mret result_ret
       py_items py_contains py_getitem py_iter py_len py_index py_str] in *.

(** Two accumulators that agree on a key still agree on it after the
    same items are inserted. *)
Lemma foldl_insert_agree (table : gmap string string) (key : string)
    (record : list (string * yaml)) (d1 d2 : gmap string yaml) :
  d1 !! key = d2 !! key →
  foldl (λ d kv, <[mapped_key table kv.1 := kv.2]> d) d1 record !! key
  = foldl (λ d kv, <[mapped_key table kv.1 := kv.2]> d) d2 record !! key.
Proof.
  revert d1 d2. induction record as [|[k v] record IH]; intros d1 d2 Hd; [done|].
  simpl. apply IH. rewrite !lookup_insert. by case_decide.
Qed.

(** Removing a raw key only touches the key it is mapped to. *)
Lemma apply_mappings_remove (table : gmap string string) (dropped key : string)
    (record : list (string * yaml)) :
  key ≠ mapped_key table dropped →
  apply_mappings table (items_remove dropped record) !! key
  = apply_mappings table record !! key.
Proof.
  intros Hne. unfold apply_mappings. generalize (∅ : gmap string yaml).
  induction record as [|[k v] record IH]; intros d; [done|].
  unfold items_remove in *. simpl.
  destruct (String.eqb k dropped) eqn:Hk; simpl.
  - apply String.eqb_eq in Hk as ->. rewrite IH.
    apply foldl_insert_agree. by rewrite lookup_insert_ne.
  - apply IH.
Qed.

Lemma apply_mappings_nil (table : gmap string string) :
  apply_mappings table [] = ∅.
Proof. done. Qed.

(** A note whose index is in the range of both lists is paired with the
    records at its index. *)
Lemma paired_records_in_range (snapshots versions : list yaml) (i : nat)
    (note_snapshot note_version : yaml) :
  snapshots !! i = Some note_snapshot →
  versions !! i = Some note_version →
  paired_records (YList snapshots) (YList versions) i
  = Ok (note_snapshot, note_version).
Proof.
  intros Hs Hv. unfold paired_records. run_result.
  pose proof (lookup_lt_Some _ _ _ Hs) as Hls.
  pose proof (lookup_lt_Some _ _ _ Hv) as Hlv.
  destruct (Nat.leb_spec (length snapshots) i) as [?|_]; [lia|].
  destruct (Nat.leb_spec (length versions) i) as [?|_]; [lia|].
  cbn [py_index]. rewrite Hs. run_result. by rewrite Hv.
Qed.

(** A note whose index is out of the range of a list is paired with two
    empty dictionaries. *)
Lemma paired_records_out_of_range (snapshots versions : list yaml) (i : nat) :
  (length snapshots ≤ i ∨ length versions ≤ i)%nat →
  paired_records (YList snapshots) (YList versions) i = Ok (YMap [], YMap []).
Proof.
  intros Hi. unfold paired_records. run_result.
  destruct (Nat.leb_spec (length snapshots) i) as [?|?]; [done|].
  destruct (Nat.leb_spec (length versions) i) as [?|?]; [done|lia].
Qed.

Lemma version_contribution_lookup (mappings : manifest_mappings)
    (version_items : list (string * yaml)) (key : string) :
  key ≠ mapped_key (note_versions mappings) "notes" →
  ∃ contribution,
    version_contribution mappings (YMap version_items) = Ok contribution
    ∧ contribution !! key
      = apply_mappings (note_versions mappings) version_items !! key.
Proof.
  intros Hne. unfold version_contribution. run_result.
  destruct (items_has "notes" version_items); eexists; split; try done.
  by apply apply_mappings_remove.
Qed.

Lemma version_contribution_ok (mappings : manifest_mappings)
    (version_items : list (string * yaml)) :
  ∃ contribution,
    version_contribution mappings (YMap version_items) = Ok contribution.
Proof. unfold version_contribution. run_result. eauto. Qed.

(** The snapshot contribution exists exactly when the [pop] finds its key,
    and differs from the mapped snapshot at [file_types] only. *)
Lemma snapshot_contribution_lookup (mappings : manifest_mappings)
    (snapshot_items : list (string * yaml)) :
  (items_has "file_types" snapshot_items = true →
   is_Some (apply_mappings (note_snapshots mappings) snapshot_items
              !! "file_types")) →
  ∃ contribution,
    snapshot_contribution mappings (YMap snapshot_items) = Ok contribution
    ∧ ∀ key, key ≠ "file_types" →
        contribution !! key
        = apply_mappings (note_snapshots mappings) snapshot_items !! key.
Proof.
  intros Hpop. unfold snapshot_contribution. run_result.
  destruct (items_has "file_types" snapshot_items).
  - destruct Hpop as [v Hv]; [done|]. unfold dict_pop. rewrite Hv. run_result.
    eexists; split; [done|]. intros key Hne. by rewrite lookup_delete_ne.
  - eauto.
Qed.

Lemma snapshot_contribution_raises (mappings : manifest_mappings)
    (snapshot_items : list (string * yaml)) :
  items_has "file_types" snapshot_items = true →
  apply_mappings (note_snapshots mappings) snapshot_items !! "file_types" = None →
  snapshot_contribution mappings (YMap snapshot_items)
  = Raise (KeyError "file_types").
Proof.
  intros Hhas Hnone. unfold snapshot_contribution. run_result.
  rewrite Hhas. unfold dict_pop. by rewrite Hnone.
Qed.

Lemma process_notes_app (mappings : manifest_mappings) (base_dir : string)
    (snapshots versions : yaml) (i : nat) (before rest : list yaml) :
  process_notes mappings base_dir snapshots versions i (before ++ rest)
  = (done ← process_notes mappings base_dir snapshots versions i before;
     more ← process_notes mappings base_dir snapshots versions
              (i + length before) rest;
     Ok (done ++ more)%list).
Proof.
  revert i. induction before as [|note before IH]; intros i; simpl.
  - rewrite Nat.add_0_r.
    by destruct (process_notes mappings base_dir snapshots versions i rest).
  - destruct (process_note mappings base_dir snapshots versions i note);
      run_result; [|done].
    rewrite IH, Nat.add_succ_r. simpl.
    destruct (process_notes mappings base_dir snapshots versions (S i) before);
      run_result; [|done].
    by destruct (process_notes mappings base_dir snapshots versions
                   (S (i + length before)) rest).
Qed.

(** A failure caught by the [try] block is logged and leaves an empty
    list: the load raises, or the document has no [snapshots]. *)
Lemma load_failure_is_logged (mappings : manifest_mappings)
    (fs : string → manifest_read) (path : string) :
  fs path = LoadFails
  ∨ (∃ contents e, fs path = Loaded contents ∧ read_contents contents = Raise e) →
  _process_manifest_file mappings fs path = ([read_failure_message path], Ok []).
Proof.
  unfold _process_manifest_file.
  intros [->|(contents & e & -> & ->)]; done.
Qed.

(** C3: the failure of [open], which stands before the [try] block, is
    neither logged nor turned into an empty list; it reaches the caller. *)
Theorem open_failure_escapes (mappings : manifest_mappings)
    (fs : string → manifest_read) (path : string) :
  fs path = OpenFails →
  _process_manifest_file mappings fs path = ([], Raise IOError).
Proof. unfold _process_manifest_file. by intros ->. Qed.

Lemma open_failure_escapes_witness :
  _process_manifest_file DEFAULT_MANIFEST_SG_MAPPINGS Samples.sample_fs
    "/deliveries/locked/manifest.yaml" = ([], Raise IOError).
Proof. apply open_failure_escapes. reflexivity. Defined.

(** C4: a note whose index is in the range of both lists gets, under every
    key other than the dropped ones ([file_types] of the snapshot, and the
    key the versions table gives to [notes], which is [notes] itself under
    the default tables), the value of the mapped snapshot if the snapshot
    has the key, else the value of the mapped version if the version has
    it, else the value of the note's own fields.  The merge is carried out
    whenever the note's links are well formed and the [pop] of
    [file_types] finds its key, as it does when the snapshots table leaves
    [file_types] alone. *)
Theorem note_fields_precedence (mappings : manifest_mappings)
    (snapshots versions : list yaml) (i : nat)
    (note_items snapshot_items version_items : list (string * yaml))
    (own : gmap string yaml) :
  snapshots !! i = Some (YMap snapshot_items) →
  versions !! i = Some (YMap version_items) →
  note_own_fields mappings note_items = Ok own →
  (items_has "file_types" snapshot_items = true →
   is_Some (apply_mappings (note_snapshots mappings) snapshot_items
              !! "file_types")) →
  ∃ final,
    note_merged_fields mappings (YList snapshots) (YList versions) i
      (YMap note_items) = Ok final
    ∧ ∀ key,
        key ≠ "file_types" →
        key ≠ mapped_key (note_versions mappings) "notes" →
        final !! key =
          match apply_mappings (note_snapshots mappings) snapshot_items !! key with
          | Some v => Some v
          | None =>
              match apply_mappings (note_versions mappings) version_items !! key with
              | Some v => Some v
              | None => own !! key
              end
          end.
Proof.
  intros Hs Hv Hown Hpop.
  destruct (snapshot_contribution_lookup mappings snapshot_items Hpop)
    as (from_snapshot & Hsnap & Hsnap_lookup).
  destruct (version_contribution_ok mappings version_items)
    as (from_version & Hver).
  exists (dict_update (dict_update own from_version) from_snapshot). split.
  - unfold note_merged_fields. run_result. rewrite Hown. run_result.
    rewrite (paired_records_in_range _ _ _ _ _ Hs Hv). run_result.
    rewrite Hver. run_result. by rewrite Hsnap.
  - intros key Hft Hnotes. unfold dict_update.
    destruct (version_contribution_lookup mappings version_items key Hnotes)
      as (from_version' & Hver' & Hver_lookup).
    rewrite Hver in Hver'. injection Hver' as <-.
    rewrite !lookup_union, (Hsnap_lookup key Hft), Hver_lookup.
    destruct (apply_mappings (note_snapshots mappings) snapshot_items !! key);
      destruct (apply_mappings (note_versions mappings) version_items !! key);
      destruct (own !! key); reflexivity.
Qed.

Lemma note_fields_precedence_witness :
  ∃ final,
    note_merged_fields DEFAULT_MANIFEST_SG_MAPPINGS
      (YList [YMap Samples.sample_snapshot]) (YList [YMap Samples.sample_version])
      0 (YMap Samples.sample_note) = Ok final
    ∧ final !! "sg_snapshot_id" = Some (YInt 1002060803)
    ∧ final !! "user" = Some (YStr "client")
    ∧ final !! "content" = Some (YStr "push the silhouette").
Proof.
  destruct (note_fields_precedence DEFAULT_MANIFEST_SG_MAPPINGS
              [YMap Samples.sample_snapshot] [YMap Samples.sample_version] 0
              Samples.sample_note Samples.sample_snapshot Samples.sample_version
              Samples.sample_note_own)
    as (final & Hfinal & Hkeys).
  - reflexivity.
  - reflexivity.
  - vm_compute. reflexivity.
  - intros _. vm_compute. eauto.
  - exists final. split; [exact Hfinal|].
    repeat split.
    + rewrite Hkeys; [vm_compute; reflexivity| |]; vm_compute; discriminate.
    + rewrite Hkeys; [vm_compute; reflexivity| |]; vm_compute; discriminate.
    + rewrite Hkeys; [vm_compute; reflexivity| |]; vm_compute; discriminate.
Defined.

(** C5: a note whose index is out of the range of the snapshots or of the
    versions gets no field from either: the merged fields are the note's
    own fields. *)
Theorem note_out_of_range_keeps_own_fields (mappings : manifest_mappings)
    (snapshots versions : list yaml) (i : nat)
    (note_items : list (string * yaml)) (own : gmap string yaml) :
  (length snapshots ≤ i ∨ length versions ≤ i)%nat →
  note_own_fields mappings note_items = Ok own →
  note_merged_fields mappings (YList snapshots) (YList versions) i
    (YMap note_items) = Ok own.
Proof.
  intros Hi Hown. unfold note_merged_fields. run_result.
  rewrite Hown. run_result.
  rewrite (paired_records_out_of_range _ _ _ Hi). run_result.
  unfold version_contribution, snapshot_contribution. run_result.
  cbn [items_has items_get]. rewrite !apply_mappings_nil.
  run_result. unfold dict_update. by rewrite !(left_id_L ∅ (∪)).
Qed.

Lemma note_out_of_range_keeps_own_fields_witness :
  note_merged_fields DEFAULT_MANIFEST_SG_MAPPINGS
    (YList [YMap Samples.sample_snapshot; YMap Samples.sample_snapshot])
    (YList [YMap Samples.sample_version]) 5 (YMap Samples.sample_note)
  = note_own_fields DEFAULT_MANIFEST_SG_MAPPINGS Samples.sample_note.
Proof.
  rewrite (note_out_of_range_keeps_own_fields DEFAULT_MANIFEST_SG_MAPPINGS
             [YMap Samples.sample_snapshot; YMap Samples.sample_snapshot]
             [YMap Samples.sample_version] 5 Samples.sample_note
             Samples.sample_note_own).
  - vm_compute. reflexivity.
  - left. simpl. lia.
  - vm_compute. reflexivity.
Defined.

(** C10: the loop pops [attachments] from the merged fields of every
    note.  When the key is absent the [KeyError] leaves the loop and the
    function, whatever was processed before; when the key holds an empty
    list the note becomes an entry without file group whose [attachments]
    field is an empty list again. *)
Theorem note_needs_attachments (mappings : manifest_mappings)
    (snapshots versions : yaml) (i : nat) (note : yaml)
    (merged : gmap string yaml) :
  note_merged_fields mappings snapshots versions i note = Ok merged →
  (merged !! "attachments" = None →
   ∀ (fs : string → manifest_read) (path : string) (contents : yaml)
     (snapshot_list before after : list yaml),
     fs path = Loaded contents →
     read_contents contents
     = Ok (snapshots, YList (before ++ note :: after), versions) →
     py_iter snapshots = Ok snapshot_list →
     is_Ok (process_snapshots mappings (path_dirname path) snapshot_list) →
     length before = i →
     is_Ok (process_notes mappings (path_dirname path) snapshots versions 0
              before) →
     _process_manifest_file mappings fs path
     = ([], Raise (KeyError "attachments")))
  ∧ (merged !! "attachments" = Some (YList []) →
     ∀ base_dir,
       process_note mappings base_dir snapshots versions i note
       = Ok (NoteEntity {| fields := merged; files := ∅ |})).
Proof.
  intros Hmerged. split.
  - intros Habsent fs path contents snapshot_list before after
      Hfs Hread Hiter [file_entities Hfiles] Hlen [done Hdone].
    unfold _process_manifest_file. rewrite Hfs, Hread.
    unfold process_records. rewrite Hiter. run_result.
    rewrite Hfiles. run_result.
    rewrite process_notes_app, Hdone. run_result.
    rewrite Nat.add_0_l, Hlen. cbn [process_notes].
    unfold process_note at 1. rewrite Hmerged. run_result.
    unfold dict_pop. by rewrite Habsent.
  - intros Hempty base_dir. unfold process_note. rewrite Hmerged. run_result.
    unfold dict_pop. rewrite Hempty. run_result.
    unfold attachment_group, attachment_paths. cbn [truthy]. run_result.
    cbn [foldM]. run_result.
    by rewrite insert_delete_eq, insert_id.
Qed.

Lemma note_needs_attachments_witness :
  _process_manifest_file DEFAULT_MANIFEST_SG_MAPPINGS Samples.sample_fs
    "/deliveries/bare/manifest.yaml" = ([], Raise (KeyError "attachments"))
  ∧ ∃ merged,
      process_note DEFAULT_MANIFEST_SG_MAPPINGS "/deliveries/pkg"
        (YList [YMap Samples.sample_snapshot])
        (YList [YMap Samples.sample_version]) 0 (YMap Samples.sample_note)
      = Ok (NoteEntity {| fields := merged; files := ∅ |})
      ∧ merged !! "attachments" = Some (YList []).
Proof.
  split.
  - refine (proj1 (note_needs_attachments DEFAULT_MANIFEST_SG_MAPPINGS
                     (YList [YMap Samples.sample_snapshot])
                     (YList [YMap Samples.sample_version]) 1
                     (YMap Samples.bare_note)
                     (apply_mappings (note_notes DEFAULT_MANIFEST_SG_MAPPINGS)
                        Samples.bare_note) _) _
              Samples.sample_fs "/deliveries/bare/manifest.yaml"
              Samples.bare_manifest [YMap Samples.sample_snapshot]
              [YMap Samples.sample_note] [] _ _ _ _ _ _).
    + vm_compute. reflexivity.
    + vm_compute. reflexivity.
    + reflexivity.
    + reflexivity.
    + reflexivity.
    + vm_compute. eauto.
    + reflexivity.
    + vm_compute. eauto.
  - exists Samples.sample_note_merged. split.
    + refine (proj2 (note_needs_attachments DEFAULT_MANIFEST_SG_MAPPINGS
                       (YList [YMap Samples.sample_snapshot])
                       (YList [YMap Samples.sample_version]) 0
                       (YMap Samples.sample_note) Samples.sample_note_merged _)
                _ "/deliveries/pkg").
      * vm_compute. reflexivity.
      * vm_compute. reflexivity.
    + vm_compute. reflexivity.
Defined.

End ManifestFacts.

(** ** Filter Scorer *)

Module FilterScorerFacts.
Import FilterScorer.

Ltac run_result := cbn [mbind result_bind mret result_ret] in *.

Lemma insert_by_key_perm {A} (key : A → Z) (x : A) (l : list A) :
  insert_by_key key x l ≡ₚ x :: l.
Proof.
  induction l as [|y l IH]; simpl; [done|].
  destruct (key x <=? key y); [done|].
  rewrite IH. apply Permutation_swap.
Qed.

(** Sorting keeps the elements. *)
Lemma sort_by_key_perm {A} (key : A → Z) (l : list A) :
  sort_by_key key l ≡ₚ l.
Proof.
  induction l as [|x l IH]; simpl; [done|].
  unfold sort_by_key in *. simpl. by rewrite insert_by_key_perm, IH.
Qed.

Lemma elem_of_sort_by_key {A} (key : A → Z) (l : list A) (x : A) :
  x ∈ sort_by_key key l ↔ x ∈ l.
Proof. by rewrite sort_by_key_perm. Qed.



(** A loop that collects results ends well when every turn does, and then
    holds the result of every turn. *)
Lemma mapR_ok {A B} (f : A → result B) (l : list A) :
  (∀ x, x ∈ l → is_Ok (f x)) →
  ∃ ys, mapR f l = Ok ys ∧ ∀ x y, x ∈ l → f x = Ok y → y ∈ ys.
Proof.
  induction l as [|x l IH]; intros Hall; simpl.
  - exists []. split; [done|]. intros x y Hx. by apply elem_of_nil in Hx.
  - destruct (Hall x) as [y Hy]; [by left|].
    destruct IH as (ys & Hys & Hin); [intros; apply Hall; by right|].
    exists (y :: ys). rewrite Hy, Hys. split; [done|].
    intros x' y' Hx' Hy'. apply elem_of_cons in Hx' as [->|Hx'].
    + rewrite Hy in Hy'. injection Hy' as <-. by left.
    + right. eauto.
Qed.

Lemma foldl_max_bounds (rest : list candidate) (m : Z) :
  let M := foldl (λ m c', Z.max m (resolution_order c')) m rest in
  m ≤ M
  ∧ (∀ c, c ∈ rest → resolution_order c ≤ M)
  ∧ (M = m ∨ ∃ c, c ∈ rest ∧ resolution_order c = M).
Proof.
  revert m. induction rest as [|c rest IH]; intros m; simpl.
  - split; [lia|]. split; [|by left]. intros c Hc. by apply elem_of_nil in Hc.
  - destruct (IH (Z.max m (resolution_order c))) as (Hle & Hall & Hex).
    split; [lia|]. split.
    + intros c' Hc'. apply elem_of_cons in Hc' as [->|Hc']; [lia|eauto].
    + destruct Hex as [Hex|(c' & Hc' & Hex)].
      * destruct (Z.max_spec m (resolution_order c)) as [[_ Hm]|[_ Hm]].
        -- right. exists c. split; [by left|lia].
        -- left. lia.
      * right. exists c'. split; [by right|done].
Qed.

(** On a list that is not empty, [max] is the largest resolution order. *)
Lemma max_order_is_max (mapping : list candidate) :
  mapping ≠ [] →
  ∃ M, max_order mapping = Ok M
       ∧ (∀ c, c ∈ mapping → resolution_order c ≤ M)
       ∧ (∃ c, c ∈ mapping ∧ resolution_order c = M).
Proof.
  destruct mapping as [|c rest]; [done|]. intros _.
  eexists. split; [done|].
  destruct (foldl_max_bounds rest (resolution_order c)) as (Hle & Hall & Hex).
  split.
  - intros c' Hc'. apply elem_of_cons in Hc' as [->|Hc']; [done|eauto].
  - destruct Hex as [Hex|(c' & Hc' & Hex)].
    + exists c. split; [by left|done].
    + exists c'. split; [by right|done].
Qed.

Section Scorer.

Variable manifest_field_filters : string → list (string * string).
Variable operator_call : string → yaml → string → result yaml.
Variable method_call : string → yaml → string → result yaml.
Variable equals_coerced : yaml → string → bool.

Local Abbreviation filters_of c := (manifest_field_filters (item_type c)).
Local Abbreviation score_of fields filters :=
  (match_score operator_call method_call equals_coerced fields filters).
Local Abbreviation rescored fields M c :=
  (rescore manifest_field_filters operator_call method_call equals_coerced
     fields M c).
Local Abbreviation scores_cleanly fields c :=
  (scores_cleanly manifest_field_filters operator_call method_call
     equals_coerced fields c).
Local Abbreviation scorer mapping props :=
  (_get_filtered_item_types_from_settings manifest_field_filters
     operator_call method_call equals_coerced mapping props).

Lemma has_filters_true (c : candidate) :
  has_filters manifest_field_filters c = true ↔ filters_of c ≠ [].
Proof. unfold has_filters. by destruct (filters_of c). Qed.

Lemma has_filters_false (c : candidate) :
  has_filters manifest_field_filters c = false ↔ filters_of c = [].
Proof. unfold has_filters. by destruct (filters_of c). Qed.

Lemma rescore_ok (fields : yaml) (M : Z) (c : candidate) :
  scores_cleanly fields c → is_Ok (rescored fields M c).
Proof.
  intros Hclean. unfold rescore.
  destruct (template_present (work_path_template c)) eqn:Ht; simpl;
    [|by eexists].
  destruct (has_filters manifest_field_filters c) eqn:Hf; [|by eexists].
  destruct Hclean as [score Hscore]; [done|by apply has_filters_true|].
  rewrite Hscore. run_result.
  destruct (score =? Z.of_nat (length (filters_of c))); by eexists.
Qed.

(** A candidate with a template and filters: what its turn of the loop
    appends. *)
Lemma rescore_filtered (fields : yaml) (M score : Z) (c : candidate) :
  template_present (work_path_template c) = true →
  filters_of c ≠ [] →
  score_of fields (filters_of c) = Ok score →
  rescored fields M c
  = Ok (if score =? Z.of_nat (length (filters_of c))
        then (resolution_order c - score, work_path_template c, item_type c)
        else (resolution_order c + M, work_path_template c, item_type c)).
Proof.
  intros Ht Hf Hscore. unfold rescore.
  apply has_filters_true in Hf. rewrite Ht, Hf. simpl.
  rewrite Hscore. run_result.
  by destruct (score =? Z.of_nat (length (filters_of c))).
Qed.

(** A candidate without filters: it is appended as it is. *)
Lemma rescore_unfiltered (fields : yaml) (M : Z) (c : candidate) :
  filters_of c = [] → rescored fields M c = Ok c.
Proof.
  intros Hf. unfold rescore. apply has_filters_false in Hf.
  by rewrite Hf, andb_false_r.
Qed.

(** In manifest mode the scorer ends well when no filter raises, and it
    returns what the turns of the loop appended. *)
Lemma scorer_manifest_mode (mapping : list candidate)
    (props : gmap string yaml) (fields : yaml) :
  props !! "manifest_file_fields" = Some fields →
  mapping ≠ [] →
  (∀ c, c ∈ mapping → scores_cleanly fields c) →
  ∃ out M,
    scorer mapping props = Ok out
    ∧ max_order mapping = Ok M
    ∧ ∀ c c', c ∈ mapping → rescored fields M c = Ok c' → c' ∈ out.
Proof.
  intros Hprops Hne Hclean.
  destruct (max_order_is_max mapping Hne) as (M & HM & _).
  destruct (mapR_ok (rescore manifest_field_filters operator_call method_call
                       equals_coerced fields M) mapping)
    as (ys & Hys & Hin).
  { intros c Hc. apply rescore_ok. by apply Hclean. }
  exists (sort_by_key (sort_key M) ys), M.
  unfold _get_filtered_item_types_from_settings.
  rewrite HM, Hprops. run_result. rewrite Hys. run_result.
  split; [done|]. split; [done|].
  intros c c' Hc Hc'. apply elem_of_sort_by_key. eauto.
Qed.

(** C1: in manifest mode, a candidate with a template and with filters
    comes back with its resolution order lowered by the match score when
    the score is the number of filters, and raised by the largest
    resolution order of the input list otherwise. *)
Theorem full_match_discount_else_pushed_back (mapping : list candidate)
    (props : gmap string yaml) (fields : yaml) (c : candidate) :
  props !! "manifest_file_fields" = Some fields →
  c ∈ mapping →
  template_present (work_path_template c) = true →
  filters_of c ≠ [] →
  (∀ c', c' ∈ mapping → scores_cleanly fields c') →
  ∃ out M score,
    scorer mapping props = Ok out
    ∧ (∀ c', c' ∈ mapping → resolution_order c' ≤ M)
    ∧ (∃ c', c' ∈ mapping ∧ resolution_order c' = M)
    ∧ score_of fields (filters_of c) = Ok score
    ∧ (score = Z.of_nat (length (filters_of c)) →
       (resolution_order c - score, work_path_template c, item_type c) ∈ out)
    ∧ (score ≠ Z.of_nat (length (filters_of c)) →
       (resolution_order c + M, work_path_template c, item_type c) ∈ out).
Proof.
  intros Hprops Hc Ht Hf Hclean.
  assert (Hne : mapping ≠ []) by (intros ->; by apply elem_of_nil in Hc).
  destruct (scorer_manifest_mode mapping props fields Hprops Hne Hclean)
    as (out & M & Hout & HM & Hin).
  destruct (max_order_is_max mapping Hne) as (M' & HM' & Hbound & Hreached).
  rewrite HM in HM'. injection HM' as <-.
  destruct (Hclean c Hc Ht Hf) as [score Hscore].
  exists out, M, score. repeat split; try done.
  - intros Hfull. apply (Hin c); [done|].
    rewrite (rescore_filtered fields M score c Ht Hf Hscore).
    apply Z.eqb_eq in Hfull. by rewrite Hfull.
  - intros Hpart. apply (Hin c); [done|].
    rewrite (rescore_filtered fields M score c Ht Hf Hscore).
    apply Z.eqb_neq in Hpart. by rewrite Hpart.
Qed.

(** C2: on the empty list the hook raises the [ValueError] of [max] before
    it looks at the creation properties; it does not return an empty list. *)
Theorem empty_mapping_raises (props : gmap string yaml) :
  scorer [] props = Raise ValueError.
Proof. reflexivity. Qed.

(** C6: a candidate whose item type has no filters is returned as it is in
    manifest mode; without manifest fields the hook returns exactly the
    candidates whose item type has no filters. *)
Theorem unfiltered_candidates_pass (mapping : list candidate)
    (props : gmap string yaml) :
  (∀ fields c,
     props !! "manifest_file_fields" = Some fields →
     c ∈ mapping →
     filters_of c = [] →
     (∀ c', c' ∈ mapping → scores_cleanly fields c') →
     ∃ out, scorer mapping props = Ok out ∧ c ∈ out)
  ∧ (props !! "manifest_file_fields" = None →
     mapping ≠ [] →
     ∃ out, scorer mapping props = Ok out
            ∧ ∀ c, c ∈ out ↔ c ∈ mapping ∧ filters_of c = []).
Proof.
  split.
  - intros fields c Hprops Hc Hf Hclean.
    assert (Hne : mapping ≠ []) by (intros ->; by apply elem_of_nil in Hc).
    destruct (scorer_manifest_mode mapping props fields Hprops Hne Hclean)
      as (out & M & Hout & _ & Hin).
    exists out. split; [done|].
    apply (Hin c); [done|]. by apply rescore_unfiltered.
  - intros Hprops Hne.
    destruct (max_order_is_max mapping Hne) as (M & HM & _).
    eexists. unfold _get_filtered_item_types_from_settings.
    rewrite HM, Hprops. run_result. split; [done|].
    intros c. rewrite elem_of_sort_by_key, list_elem_of_In, filter_In,
      <- list_elem_of_In, negb_true_iff.
    by rewrite has_filters_false.
Qed.

End Scorer.

Lemma sample_scores_cleanly (c : candidate) :
  c ∈ Samples.sample_mapping →
  scores_cleanly Samples.sample_filters Samples.sample_operator
    Samples.sample_method Samples.sample_equals Samples.sample_fields c.
Proof.
  unfold Samples.sample_mapping. rewrite !elem_of_cons, elem_of_nil.
  intros [->|[->|[->|[]]]] _ _; vm_compute; eauto.
Qed.

(** Two filters that both match lower the order 1 to -1; two filters of
    which one matches raise the order 2 by the largest order, 3. *)
Lemma full_match_discount_else_pushed_back_witness :
  ∃ out,
    _get_filtered_item_types_from_settings Samples.sample_filters
      Samples.sample_operator Samples.sample_method Samples.sample_equals
      Samples.sample_mapping Samples.manifest_properties = Ok out
    ∧ (-1, Some "maya_model_work", "maya.model") ∈ out
    ∧ (5, Some "maya_rig_work", "maya.rig") ∈ out.
Proof.
  destruct (full_match_discount_else_pushed_back Samples.sample_filters
              Samples.sample_operator Samples.sample_method
              Samples.sample_equals Samples.sample_mapping
              Samples.manifest_properties Samples.sample_fields
              (1, Some "maya_model_work", "maya.model"))
    as (out & M & score & Hout & _ & _ & Hscore & Hfull & _).
  { reflexivity. }
  { by left. }
  { reflexivity. }
  { vm_compute. discriminate. }
  { exact sample_scores_cleanly. }
  destruct (full_match_discount_else_pushed_back Samples.sample_filters
              Samples.sample_operator Samples.sample_method
              Samples.sample_equals Samples.sample_mapping
              Samples.manifest_properties Samples.sample_fields
              (2, Some "maya_rig_work", "maya.rig"))
    as (out' & M' & score' & Hout' & Hbound & Hreached & Hscore' & _ & Hpart).
  { reflexivity. }
  { right. by left. }
  { reflexivity. }
  { vm_compute. discriminate. }
  { exact sample_scores_cleanly. }
  rewrite Hout in Hout'. injection Hout' as <-.
  vm_compute in Hscore. injection Hscore as <-.
  vm_compute in Hscore'. injection Hscore' as <-.
  assert (M' = 3) as ->.
  { destruct Hreached as (c' & Hc' & <-).
    pose proof (Hbound (3, None, "file.generic")) as Hthree.
    unfold Samples.sample_mapping in Hc', Hthree.
    rewrite !elem_of_cons, elem_of_nil in Hc', Hthree.
    destruct Hc' as [->|[->|[->|[]]]]; cbn in *; [| |done];
      exfalso; (assert (3 ≤ 1 ∨ 3 ≤ 2) as [?|?]; [|lia|lia]);
      [left|right]; apply Hthree; eauto. }
  exists out. split; [exact Hout|]. split.
  - apply Hfull. reflexivity.
  - apply Hpart. vm_compute. discriminate.
Defined.

Lemma unfiltered_candidates_pass_witness :
  (∃ out,
     _get_filtered_item_types_from_settings Samples.sample_filters
       Samples.sample_operator Samples.sample_method Samples.sample_equals
       Samples.sample_mapping Samples.manifest_properties = Ok out
     ∧ (3, None, "file.generic") ∈ out)
  ∧ (∃ out,
       _get_filtered_item_types_from_settings Samples.sample_filters
         Samples.sample_operator Samples.sample_method Samples.sample_equals
         Samples.sample_mapping ∅ = Ok out
       ∧ ∀ c, c ∈ out
              ↔ c ∈ Samples.sample_mapping
                ∧ Samples.sample_filters (item_type c) = []).
Proof.
  split.
  - apply (proj1 (unfiltered_candidates_pass Samples.sample_filters
                    Samples.sample_operator Samples.sample_method
                    Samples.sample_equals Samples.sample_mapping
                    Samples.manifest_properties) Samples.sample_fields).
    + reflexivity.
    + right. right. by left.
    + reflexivity.
    + exact sample_scores_cleanly.
  - apply (proj2 (unfiltered_candidates_pass Samples.sample_filters
                    Samples.sample_operator Samples.sample_method
                    Samples.sample_equals Samples.sample_mapping ∅)).
    + reflexivity.
    + discriminate.
Defined.

End FilterScorerFacts.

(** ** Context Resolver *)

Module ContextResolverFacts.
Import Shotgun Manifest ContextResolver.

Section Resolver.
Context {db : Type} (sg : client db).
Variable get_template_by_name : string → template_kind.
Variable base_context : string → string → list yaml → result context.

Local Abbreviation resolve wpt path seeds :=
  (_get_item_context_from_path sg get_template_by_name base_context
     wpt path seeds).
Local Abbreviation reaches wpt path seeds d ctx step_entity content :=
  (reaches_creation sg get_template_by_name base_context
     wpt path seeds d ctx step_entity content).

Ltac to_creation H :=
  destruct H as [Hfirst Hentity Hnostep (entity_type & Htype & Hstep)
                   Hsteptrue Hcontent (found & Hfound & Hnotfound)];
  unfold _get_item_context_from_path, find_step, vendor_task, run_bind,
    pure_step, call_find_one, call_create, run_ret;
  rewrite Hfirst, Hentity, Hnostep, Htype, Hstep, Hsteptrue, Hcontent,
    Hfound, Hnotfound.

(** C7: an exception raised by the creation of the task is not caught: it
    ends the resolution, nothing is logged, and the context obtained by
    the first resolution is lost to the caller. *)
Theorem task_creation_failure_escapes (work_path_template path : string)
    (default_entities : list yaml) (d d' : db) (ctx : context)
    (step_entity content : yaml) (e : exn) :
  reaches work_path_template path default_entities d ctx step_entity content →
  sg_create sg d "Task" (task_data ctx step_entity content) task_fields
  = (Raise e, d') →
  ∃ step_call task_call,
    resolve work_path_template path default_entities d
    = ([step_call; task_call;
        Create "Task" (task_data ctx step_entity content)], d', Raise e).
Proof.
  intros Hreach Hcreate. to_creation Hreach.
  rewrite Hcreate. simpl. eauto.
Qed.

(** When the creation returns nothing instead, the failure is logged and
    the second resolution is made with the step alone. *)
Lemma task_creation_none_is_logged (work_path_template path : string)
    (default_entities : list yaml) (d d' : db) (ctx : context)
    (step_entity content created : yaml) :
  reaches work_path_template path default_entities d ctx step_entity content →
  sg_create sg d "Task" (task_data ctx step_entity content) task_fields
  = (Ok created, d') →
  truthy created = false →
  ∃ step_call task_call,
    resolve work_path_template path default_entities d
    = ([step_call; task_call;
        Create "Task" (task_data ctx step_entity content);
        LogError create_failure_message], d',
       base_context work_path_template
         (resolved_path get_template_by_name work_path_template path)
         [step_entity]).
Proof.
  intros Hreach Hcreate Hnone. to_creation Hreach.
  rewrite Hcreate. simpl. rewrite Hnone. simpl. rewrite Hnone. simpl.
  destruct (base_context _ _ [step_entity]); eauto.
Qed.

(** An exception raised while the status of the task is set is swallowed:
    the second resolution is made with the step and the task. *)
Lemma status_update_failure_is_swallowed (work_path_template path : string)
    (default_entities : list yaml) (d d' d'' : db) (ctx : context)
    (step_entity content created task_id : yaml) (e : exn) :
  reaches work_path_template path default_entities d ctx step_entity content →
  sg_create sg d "Task" (task_data ctx step_entity content) task_fields
  = (Ok created, d') →
  truthy created = true →
  py_getitem "id" created = Ok task_id →
  sg_update sg d' "Task" task_id [("sg_status_list", YStr "na")]
  = (Raise e, d'') →
  ∃ events,
    resolve work_path_template path default_entities d
    = (events, d'',
       base_context work_path_template
         (resolved_path get_template_by_name work_path_template path)
         [step_entity; created]).
Proof.
  intros Hreach Hcreate Hsome Hid Hupdate. to_creation Hreach.
  rewrite Hcreate. simpl. rewrite Hsome. simpl. rewrite Hsome.
  unfold try_except, run_bind, pure_step, call_update, run_ret.
  rewrite Hid, Hupdate. simpl.
  destruct (base_context _ _ [step_entity; created]); eauto.
Qed.

End Resolver.

Lemma task_creation_failure_escapes_witness :
  ∃ step_call task_call,
    _get_item_context_from_path Samples.refusing_client
      Samples.sample_templates Samples.sample_base_context
      "ingest_asset_work" "/deliveries/pkg/maya/egypt_riser_a_hi_v001.mb" [] []
    = ([step_call; task_call;
        Create "Task"
          (task_data
             {| project := Samples.sample_project;
                entity := Samples.sample_asset;
                step := YNone; task := YNone |}
             Samples.vendor_step (YStr "vendor"))], [], Raise Fault).
Proof.
  apply (task_creation_failure_escapes Samples.refusing_client
           Samples.sample_templates Samples.sample_base_context
           "ingest_asset_work" "/deliveries/pkg/maya/egypt_riser_a_hi_v001.mb"
           [] [] []).
  - split.
    + reflexivity.
    + reflexivity.
    + reflexivity.
    + exists (YStr "Asset"). split; reflexivity.
    + reflexivity.
    + reflexivity.
    + exists YNone. split; reflexivity.
  - reflexivity.
Defined.

End ContextResolverFacts.

(** ** Entity Linker *)

Module IngestFilesFacts.
Import Shotgun Manifest IngestFiles.

Lemma delete_calls_app (ev1 ev2 : list event) :
  delete_calls (ev1 ++ ev2) = (delete_calls ev1 ++ delete_calls ev2)%list.
Proof. apply omap_app. Qed.

Lemma delete_calls_delete (entity_type entity_id : yaml) (events : list event) :
  delete_calls (Delete entity_type entity_id :: events)
  = (entity_type, entity_id) :: delete_calls events.
Proof. done. Qed.

Section Linker.
Context {db : Type} (sg : client db).
Variable snapshot_type_settings : gmap string string.

Local Abbreviation world := (world (db:=db)).
Local Abbreviation find_linked fields :=
  (_find_linked_entity sg snapshot_type_settings fields).

Lemma spares_ret key {A} (a : A) : spares key (run_ret a : run world A).
Proof. intros w ev w' r [= <- <- <-]. done. Qed.

Lemma spares_pure key {A} (x : result A) : spares key (pure_step x : run world A).
Proof. intros w ev w' r [= <- <- <-]. done. Qed.

Lemma spares_get_item key : spares key (get_item (db:=db)).
Proof. intros w ev w' r [= <- <- <-]. done. Qed.

Lemma spares_log key (message : string) :
  spares key (log_error message : run world unit).
Proof. intros w ev w' r [= <- <- <-]. done. Qed.

Lemma spares_set_property key (k : string) (v : yaml) :
  k ≠ key → spares key (set_property (db:=db) k v).
Proof.
  intros Hne w ev w' r [= <- <- <-]. simpl.
  by rewrite lookup_insert_ne.
Qed.

Lemma spares_find_one key (entity_type : string) (filters : list sg_filter)
    (fields : list string) :
  spares key (call_find_one (world_client sg) entity_type filters fields).
Proof. intros w ev w' r [= <- <- <-]. done. Qed.

Lemma spares_bind key {A B} (m : run world A) (f : A → run world B) :
  spares key m → (∀ a, spares key (f a)) → spares key (run_bind m f).
Proof.
  intros Hm Hf w ev w' r. unfold run_bind.
  destruct (m w) as [[ev1 w1] [a|e]] eqn:Hmw.
  - destruct (f a w1) as [[ev2 w2] r2] eqn:Hfw. intros [= <- <- <-].
    destruct (Hm _ _ _ _ Hmw) as (Hev1 & Hd1 & Hp1 & Hn1).
    destruct (Hf _ _ _ _ _ Hfw) as (Hev2 & Hd2 & Hp2 & Hn2).
    rewrite delete_calls_app, Hev1, Hev2. repeat split; congruence.
  - intros [= <- <- <-]. by apply (Hm _ _ _ _ Hmw).
Qed.

(** The lookup of the linked entity only queries, and only sets the
    item's [linked_entity_type]. *)
Lemma find_linked_entity_spares key (fields : list string) :
  key ≠ "linked_entity_type" → spares key (find_linked fields).
Proof.
  intros Hne. unfold _find_linked_entity.
  apply spares_bind; [apply spares_get_item|]. intros it.
  apply spares_bind; [apply spares_pure|]. intros linked_entity_type.
  apply spares_bind; [by apply spares_set_property|]. intros _.
  destruct (String.eqb linked_entity_type UNLINKED_ENTITY_TYPE);
    [apply spares_ret|].
  repeat (apply spares_bind; [apply spares_pure|]; intros ?).
  apply spares_find_one.
Qed.

Lemma nothing_published_true (linked_entity_data linked_entity : yaml) :
  nothing_published linked_entity_data linked_entity = Ok true →
  truthy linked_entity_data = true
  ∧ truthy linked_entity = true
  ∧ ∃ published,
      py_getitem "sg_published_files" linked_entity = Ok published
      ∧ py_len published = Ok 0%nat.
Proof.
  unfold nothing_published.
  destruct (truthy linked_entity_data), (truthy linked_entity);
    simpl; try discriminate.
  destruct (py_getitem "sg_published_files" linked_entity) as [published|];
    cbn [mbind result_bind]; try discriminate.
  destruct (py_len published) as [n|] eqn:Hlen; cbn [mbind result_bind];
    try discriminate.
  intros [= Hn]. apply Nat.eqb_eq in Hn as ->. eauto.
Qed.

(** The handler of the [try] block issues no deletion and touches neither
    the database nor the item. *)
Lemma report_delete_failure_spares key :
  spares key (report_delete_failure (db:=db)).
Proof.
  apply spares_bind; [apply spares_get_item|]. intros failed.
  apply spares_bind; [apply spares_pure|]. intros t. apply spares_log.
Qed.

(** The three ways the [try] block can go: the entity the item carries
    has no type or no id and nothing is called; the deletion is called
    and raises; the deletion is called, returns, and the property goes. *)
Lemma delete_linked_entity_cases (led : yaml) (d : db) (it : item)
    (events : list event) (w : world) (r : result unit) :
  properties it !! "ingest_entity_data" = Some led →
  delete_linked_entity sg led (d, it) = (events, w, r) →
  (events = [] ∧ w = (d, it) ∧ ∃ e, r = Raise e)
  ∨ (∃ entity_type entity_id,
       py_getitem "type" led = Ok entity_type
       ∧ py_getitem "id" led = Ok entity_id
       ∧ events = [Delete entity_type entity_id]
       ∧ ((∃ e d2,
             sg_delete sg d entity_type entity_id = (Raise e, d2)
             ∧ w = (d2, it) ∧ r = Raise e)
          ∨ (∃ deleted d2,
               sg_delete sg d entity_type entity_id = (Ok deleted, d2)
               ∧ w = (d2, set_properties
                            (delete "ingest_entity_data" (properties it)) it)
               ∧ r = Ok ()))).
Proof.
  intros Hled. unfold delete_linked_entity, run_bind, pure_step, call_delete,
    pop_property, run_ret, world_client. cbn [sg_delete fst snd].
  destruct (py_getitem "type" led) as [entity_type|e].
  2:{ intros [= <- <- <-]. left. eauto. }
  destruct (py_getitem "id" led) as [entity_id|e].
  2:{ intros [= <- <- <-]. left. eauto. }
  destruct (sg_delete sg d entity_type entity_id) as [[deleted|e] d2] eqn:Hdel.
  - cbn [fst snd properties]. rewrite Hled. intros [= <- <- <-].
    right. exists entity_type, entity_id. repeat split; try done.
    right. eauto.
  - intros [= <- <- <-].
    right. exists entity_type, entity_id. repeat split; try done.
    left. eauto.
Qed.

(** C9: [undo] issues a deletion only for an item that carries
    [ingest_entity_data] and whose linked entity is found with an empty
    list of published files, and the deletion is that of the entity the
    item carries; when no deletion is issued the database is as before and
    the property is still there; the property is gone only when the
    deletion was called and returned. *)
Theorem undo_deletes_only_unpublished (d d' : db) (it it' : item)
    (events : list event) (r : result unit) :
  undo sg snapshot_type_settings (d, it) = (events, (d', it'), r) →
  (delete_calls events ≠ [] →
   ∃ linked_entity_data linked_entity published entity_type entity_id,
     properties it !! "ingest_entity_data" = Some linked_entity_data
     ∧ (find_linked ["sg_published_files"] (d, it)).2 = Ok linked_entity
     ∧ truthy linked_entity = true
     ∧ py_getitem "sg_published_files" linked_entity = Ok published
     ∧ py_len published = Ok 0%nat
     ∧ py_getitem "type" linked_entity_data = Ok entity_type
     ∧ py_getitem "id" linked_entity_data = Ok entity_id
     ∧ delete_calls events = [(entity_type, entity_id)])
  ∧ (delete_calls events = [] →
     d' = d
     ∧ properties it' !! "ingest_entity_data"
       = properties it !! "ingest_entity_data")
  ∧ (properties it' !! "ingest_entity_data"
     ≠ properties it !! "ingest_entity_data" →
     properties it' !! "ingest_entity_data" = None
     ∧ ∃ entity_type entity_id deleted,
         delete_calls events = [(entity_type, entity_id)]
         ∧ sg_delete sg d entity_type entity_id = (Ok deleted, d')).
Proof.
  intros Hundo. unfold undo in Hundo.
  unfold run_bind at 1, get_item at 1 in Hundo. cbn [fst snd] in Hundo.
  destruct (properties it !! "ingest_entity_data") as [led|] eqn:Hled.
  2:{ injection Hundo as <- <- <- <-. rewrite Hled. done. }
  unfold run_bind at 1 in Hundo.
  destruct (find_linked ["sg_published_files"] (d, it))
    as [[evF [dF itF]] rF] eqn:HF.
  destruct (find_linked_entity_spares "ingest_entity_data"
              ["sg_published_files"] ltac:(done) _ _ _ _ HF)
    as (HevF & HdF & HpF & HnF).
  cbn [fst snd] in *. subst dF. rewrite Hled in HpF.
  destruct rF as [le|e].
  2:{ injection Hundo as <- <- <- <-. rewrite HevF, HpF. done. }
  unfold run_bind at 1, pure_step at 1 in Hundo.
  destruct (nothing_published led le) as [[|]|e] eqn:Hnp.
  2:{ injection Hundo as <- <- <- <-.
      rewrite !delete_calls_app, HevF, HpF. done. }
  2:{ injection Hundo as <- <- <- <-.
      rewrite !delete_calls_app, HevF, HpF. done. }
  apply nothing_published_true in Hnp
    as (Hledtrue & Hletrue & published & Hpub & Hlen).
  unfold try_except in Hundo.
  destruct (delete_linked_entity sg led (d, itF)) as [[evB wB] rB] eqn:HB.
  destruct (delete_linked_entity_cases led d itF evB wB rB HpF HB)
    as [(-> & -> & e & ->)
       |(entity_type & entity_id & Htype & Hid & -> &
         [(e & d2 & Hdel & -> & ->)|(deleted & d2 & Hdel & -> & ->)])].
  - destruct (report_delete_failure (d, itF)) as [[evH [dH itH]] rH] eqn:HH.
    destruct (report_delete_failure_spares "ingest_entity_data" _ _ _ _ HH)
      as (HevH & HdH & HpH & _).
    cbn [fst snd] in *. subst dH. rewrite HpF in HpH.
    injection Hundo as <- <- <- <-.
    rewrite !delete_calls_app, HevF, HevH, HpH. done.
  - destruct (report_delete_failure (d2, itF)) as [[evH [dH itH]] rH] eqn:HH.
    destruct (report_delete_failure_spares "ingest_entity_data" _ _ _ _ HH)
      as (HevH & HdH & HpH & _).
    cbn [fst snd] in *. subst dH. rewrite HpF in HpH.
    injection Hundo as <- <- <- <-.
    cbn [app]. rewrite !delete_calls_app, HevF, delete_calls_delete, HevH, HpH.
    cbn [app].
    split; [|split; [done|done]].
    intros _. exists led, le, published, entity_type, entity_id. done.
  - injection Hundo as <- <- <- <-.
    cbn [app]. rewrite !delete_calls_app, HevF, delete_calls_delete.
    cbn [app properties set_properties delete_calls omap].
    rewrite lookup_delete_eq.
    split; [|split; [done|]].
    + intros _. exists led, le, published, entity_type, entity_id. done.
    + intros _. split; [done|]. eauto.
Qed.

End Linker.

(** The entity made for the sample item has no published file: it is
    deleted and the item forgets it. *)
Lemma undo_deletes_only_unpublished_witness :
  ∃ events d' it' r,
    undo Samples.listing_client Samples.linking_settings
      ([Samples.linked_asset []], Samples.linked_item) = (events, (d', it'), r)
    ∧ delete_calls events = [(YStr "Asset", YInt 40)]
    ∧ properties it' !! "ingest_entity_data" = None
    ∧ d' = [].
Proof.
  destruct (undo Samples.listing_client Samples.linking_settings
              ([Samples.linked_asset []], Samples.linked_item))
    as [[events [d' it']] r] eqn:Hundo.
  destruct (undo_deletes_only_unpublished Samples.listing_client
              Samples.linking_settings _ _ _ _ _ _ Hundo)
    as (Honly & _ & Hpop).
  vm_compute in Hundo. injection Hundo as <- <- <- <-.
  destruct Hpop as (Hnone & entity_type & entity_id & deleted & Hcalls & Hdel).
  { vm_compute. discriminate. }
  eexists _, _, _, _. split; [reflexivity|].
  split; [vm_compute; reflexivity|]. split; [exact Hnone|reflexivity].
Defined.

End IngestFilesFacts.

(** ** Filter Scorer: order of the result, scores, parser strings *)

Module FilterOrderFacts.
Import FilterScorer FilterTerms FilterScorerFacts.

Ltac run_result := cbn [mbind result_bind mret result_ret] in *.

#[local] Instance key_le_transitive {A} (key : A → Z) :
  Transitive (λ a b, key a ≤ key b).
Proof. intros a b c. lia. Qed.


(** The elements of one key keep, through the sort, the order they had. *)
Lemma insert_by_key_same_key {A} (key : A → Z) (k : Z) (x : A) (l : list A) :
  List.filter (λ y, key y =? k) (insert_by_key key x l)
  = List.filter (λ y, key y =? k) (x :: l).
Proof.
  induction l as [|y l IH]; [done|].
  simpl. destruct (Z.leb_spec (key x) (key y)) as [Hle|Hlt]; [done|].
  simpl in *. rewrite IH.
  destruct (Z.eqb_spec (key x) k) as [Hx|Hx];
    destruct (Z.eqb_spec (key y) k) as [Hy|Hy]; try done.
  lia.
Qed.

Lemma sort_by_key_stable {A} (key : A → Z) (k : Z) (l : list A) :
  List.filter (λ y, key y =? k) (sort_by_key key l)
  = List.filter (λ y, key y =? k) l.
Proof.
  induction l as [|x l IH]; [done|].
  unfold sort_by_key in *. simpl foldr.
  rewrite insert_by_key_same_key. simpl. by rewrite IH.
Qed.

(** *** Parser strings *)

Lemma append_nil (t : string) : "" +:+ t = t.
Proof. reflexivity. Qed.

Lemma append_cons (a : ascii) (s t : string) :
  String a s +:+ t = String a (s +:+ t).
Proof. reflexivity. Qed.

Ltac step_append := rewrite ?append_cons, ?append_nil.

Lemma append_empty_r (s : string) : s +:+ "" = s.
Proof. induction s as [|a s IH]; step_append; [done|by f_equal]. Qed.

Lemma append_assoc (a b c : string) : (a +:+ b) +:+ c = a +:+ (b +:+ c).
Proof. induction a as [|x a IH]; step_append; [done|by f_equal]. Qed.

Lemma occurs_append (c : ascii) (a b : string) :
  occurs c (a +:+ b) = occurs c a || occurs c b.
Proof.
  induction a as [|x a IH]; step_append; simpl; [done|].
  by rewrite IH, orb_assoc.
Qed.

Lemma first_line_whole (s : string) :
  occurs "010"%char s = false → first_line s = s.
Proof.
  induction s as [|a s IH]; simpl; [done|].
  intros [Ha Hs]%orb_false_iff. rewrite Ha. by f_equal; apply IH.
Qed.

Lemma rsplit_at_absent (c : ascii) (s : string) :
  occurs c s = false → rsplit_at c s = None.
Proof.
  induction s as [|a s IH]; simpl; [done|].
  intros [Ha Hs]%orb_false_iff. by rewrite IH, Ha.
Qed.

(** Splitting at the last [c] of two strings put end to end: the split of
    the second one if it has a [c], else the split of the first one. *)
Lemma rsplit_at_append (c : ascii) (a s : string) :
  rsplit_at c (a +:+ s)
  = match rsplit_at c s with
    | Some (l, r) => Some (a +:+ l, r)
    | None =>
        match rsplit_at c a with
        | Some (l, r) => Some (l, r +:+ s)
        | None => None
        end
    end.
Proof.
  induction a as [|x a IH]; step_append; simpl.
  - by destruct (rsplit_at c s) as [[l r]|].
  - rewrite IH. destruct (rsplit_at c s) as [[l r]|] eqn:Hs; [done|].
    destruct (rsplit_at c a) as [[l r]|] eqn:Ha; [done|].
    by destruct (Ascii.eqb x c).
Qed.

(** A string splits at a [c] that no [c] follows. *)
Lemma rsplit_at_last (c : ascii) (a b : string) :
  occurs c b = false →
  rsplit_at c (a +:+ String c b) = Some (a, b).
Proof.
  intros Hb. rewrite rsplit_at_append. simpl.
  by rewrite (rsplit_at_absent c b Hb), Ascii.eqb_refl, append_empty_r.
Qed.

(** A parser string written in full parses to its three parts: the
    delimiter and the line feed occur in none of them, and the colon
    occurs neither in the expected value nor in the expected result. *)
Theorem parse_filter_of_parser_string (d : ascii)
    (method_name expected_value expected_result : string) :
  d ≠ ":"%char → d ≠ "010"%char →
  occurs d (method_name +:+ expected_value +:+ expected_result) = false →
  occurs "010"%char (method_name +:+ expected_value +:+ expected_result) = false →
  occurs ":"%char (expected_value +:+ expected_result) = false →
  parse_filter d (parser_string d method_name expected_value expected_result)
  = Some (method_name, expected_value, expected_result).
Proof.
  intros Hcolon Hfeed Hd Hnl Hc.
  repeat rewrite occurs_append in Hd. repeat rewrite orb_false_iff in Hd.
  repeat rewrite occurs_append in Hnl. repeat rewrite orb_false_iff in Hnl.
  repeat rewrite occurs_append in Hc. repeat rewrite orb_false_iff in Hc.
  destruct Hd as (Hdm & Hdv & Hdr), Hnl as (Hnm & Hnv & Hnr), Hc as (Hcv & Hcr).
  apply Ascii.eqb_neq in Hcolon, Hfeed.
  unfold parse_filter, parser_string. rewrite Ascii.eqb_refl.
  step_append.
  rewrite first_line_whole.
  2:{ rewrite !occurs_append. simpl. rewrite !occurs_append. simpl.
      rewrite !occurs_append. simpl.
      by rewrite Hnm, Hnv, Hnr, Hfeed. }
  replace (method_name +:+ String ":" (expected_value +:+
             String ":" (expected_result +:+ String d "")))
    with ((method_name +:+ String ":" (expected_value +:+
             String ":" expected_result)) +:+ String d "")
    by (repeat (rewrite append_assoc || rewrite append_cons
                || rewrite append_nil); done).
  rewrite rsplit_at_last by done.
  replace (method_name +:+ String ":" (expected_value +:+
             String ":" expected_result))
    with ((method_name +:+ String ":" expected_value)
          +:+ String ":" expected_result)
    by (repeat (rewrite append_assoc || rewrite append_cons
                || rewrite append_nil); done).
  rewrite (rsplit_at_last _ _ _ Hcr).
  by rewrite (rsplit_at_last _ _ _ Hcv).
Qed.

Lemma parse_filter_of_parser_string_witness :
  parse_filter "%" "%eq:maya_model:True%" = Some ("eq", "maya_model", "True")
  ∧ parse_filter "#" "#startswith:egypt:True#"
    = Some ("startswith", "egypt", "True").
Proof.
  split.
  - apply (parse_filter_of_parser_string "%" "eq" "maya_model" "True");
      vm_compute; congruence.
  - apply (parse_filter_of_parser_string "#" "startswith" "egypt" "True");
      vm_compute; congruence.
Defined.

(** *** The result of the scorer *)

Section Scorer.

Variable manifest_field_filters : string → list (string * string).
Variable operator_call : string → yaml → string → result yaml.
Variable method_call : string → yaml → string → result yaml.
Variable equals_coerced : yaml → string → bool.

Local Abbreviation filters_of c := (manifest_field_filters (item_type c)).
Local Abbreviation score_of fields filters :=
  (match_score operator_call method_call equals_coerced fields filters).
Local Abbreviation rescored fields M :=
  (rescore manifest_field_filters operator_call method_call equals_coerced
     fields M).
Local Abbreviation scores_cleanly fields c :=
  (scores_cleanly manifest_field_filters operator_call method_call
     equals_coerced fields c).
Local Abbreviation scorer mapping props :=
  (_get_filtered_item_types_from_settings manifest_field_filters
     operator_call method_call equals_coerced mapping props).

Local Abbreviation appended_by mapping props M appended :=
  (appended_by manifest_field_filters operator_call method_call
     equals_coerced mapping props M appended).

Lemma scorer_result (mapping : list candidate) (props : gmap string yaml)
    (out : list candidate) :
  scorer mapping props = Ok out →
  ∃ M appended,
    max_order mapping = Ok M
    ∧ appended_by mapping props M appended
    ∧ out = sort_by_key (sort_key M) appended.
Proof.
  unfold _get_filtered_item_types_from_settings, FilterTerms.appended_by.
  destruct (max_order mapping) as [M|e]; run_result; [|done].
  destruct (props !! "manifest_file_fields") as [fields|].
  - destruct (mapR _ mapping) as [appended|e] eqn:Hmap; run_result; [|done].
    intros [= <-]. eauto.
  - run_result. intros [= <-]. eauto.
Qed.


(** The candidates that tie on the sort key come back in the order in
    which the loop appended them, which is the order of the input. *)
Theorem scorer_keeps_order_of_ties (mapping : list candidate)
    (props : gmap string yaml) (out : list candidate) :
  scorer mapping props = Ok out →
  ∃ M appended,
    max_order mapping = Ok M
    ∧ appended_by mapping props M appended
    ∧ out ≡ₚ appended
    ∧ ∀ k, List.filter (λ c, sort_key M c =? k) out
           = List.filter (λ c, sort_key M c =? k) appended.
Proof.
  intros (M & appended & HM & Happ & ->)%scorer_result.
  exists M, appended. repeat split; try done.
  - apply sort_by_key_perm.
  - intros k. apply sort_by_key_stable.
Qed.

(** The score counts filters that are looked at: it lies between zero
    and the number of filters whose field holds a true value. *)
Lemma match_score_bounds (fields : yaml) (filters : list (string * string))
    (score : Z) :
  score_of fields filters = Ok score →
  0 ≤ score
  ≤ Z.of_nat (length (List.filter (field_is_true fields) filters)).
Proof.
  unfold match_score.
  assert (Hgen : ∀ start,
    foldM (λ score filter,
             field_value ← fields_get fields filter.1;
             if truthy field_value then
               matched ← filter_matches operator_call method_call
                           equals_coerced field_value filter.2;
               Ok (if matched : bool then score + 1 else score)
             else Ok score) start filters = Ok score →
    start ≤ score
    ≤ start + Z.of_nat (length (List.filter (field_is_true fields) filters))).
  { induction filters as [|filter filters IH]; intros start; simpl.
    - intros [= <-]. lia.
    - unfold field_is_true at 1.
      destruct (fields_get fields filter.1) as [v|e]; run_result; [|done].
      destruct (truthy v); run_result.
      + destruct (filter_matches _ _ _ v filter.2) as [[|]|e]; run_result;
          [| |done]; intros H%IH; simpl length; lia.
      + intros H%IH. lia. }
  intros H%Hgen. lia.
Qed.

Lemma filter_drops_one {A} (P : A → bool) (l : list A) (x : A) :
  x ∈ l → P x = false → (length (List.filter P l) < length l)%nat.
Proof.
  induction l as [|y l IH]; intros Hx HP; [by apply elem_of_nil in Hx|].
  pose proof (filter_length_le P l) as Hle. simpl.
  apply elem_of_cons in Hx as [<-|Hx].
  - rewrite HP. lia.
  - specialize (IH Hx HP). destruct (P y); simpl; lia.
Qed.

(** A candidate with a filter on a field that the manifest fields lack,
    or hold with a false value, is never discounted: it comes back with
    its resolution order raised by the largest one. *)
Theorem unmet_field_is_pushed_back (mapping : list candidate)
    (props : gmap string yaml) (fields : yaml) (c : candidate)
    (filter : string * string) :
  props !! "manifest_file_fields" = Some fields →
  c ∈ mapping →
  template_present (work_path_template c) = true →
  filter ∈ filters_of c →
  field_is_true fields filter = false →
  (∀ c', c' ∈ mapping → scores_cleanly fields c') →
  ∃ out M,
    scorer mapping props = Ok out
    ∧ max_order mapping = Ok M
    ∧ (resolution_order c + M, work_path_template c, item_type c) ∈ out.
Proof.
  intros Hprops Hc Ht Hfilter Hunmet Hclean.
  assert (Hne : mapping ≠ []) by (intros ->; by apply elem_of_nil in Hc).
  assert (Hf : filters_of c ≠ [])
    by (intros Hnil; rewrite Hnil in Hfilter; by apply elem_of_nil in Hfilter).
  destruct (scorer_manifest_mode manifest_field_filters operator_call
              method_call equals_coerced mapping props fields Hprops Hne Hclean)
    as (out & M & Hout & HM & Hin).
  destruct (Hclean c Hc Ht Hf) as [score Hscore].
  exists out, M. split; [done|]. split; [done|].
  apply (Hin c); [done|].
  rewrite (rescore_filtered manifest_field_filters operator_call method_call
             equals_coerced fields M score c Ht Hf Hscore).
  pose proof (match_score_bounds fields _ score Hscore) as Hbound.
  pose proof (filter_drops_one _ _ _ Hfilter Hunmet) as Hdrop.
  destruct (Z.eqb_spec score (Z.of_nat (length (filters_of c)))); [lia|done].
Qed.

End Scorer.


Lemma scorer_keeps_order_of_ties_witness :
  ∃ out M appended,
    _get_filtered_item_types_from_settings Samples.sample_filters
      Samples.sample_operator Samples.sample_method Samples.sample_equals
      (Samples.sample_mapping ++ [(3, None, "file.unknown")]) ∅ = Ok out
    ∧ max_order (Samples.sample_mapping ++ [(3, None, "file.unknown")]) = Ok M
    ∧ out ≡ₚ appended
    ∧ List.filter (λ c, sort_key M c =? 3) out
      = List.filter (λ c, sort_key M c =? 3) appended.
Proof.
  destruct (scorer_keeps_order_of_ties Samples.sample_filters
              Samples.sample_operator Samples.sample_method
              Samples.sample_equals
              (Samples.sample_mapping ++ [(3, None, "file.unknown")]) ∅
              [(3, None, "file.generic"); (3, None, "file.unknown")])
    as (M & appended & HM & _ & Hperm & Hties).
  - reflexivity.
  - exists [(3, None, "file.generic"); (3, None, "file.unknown")], M, appended.
    split; [reflexivity|]. split; [done|]. split; [done|]. apply Hties.
Defined.

(** The rig type filters on [snapshot_type] and on [manifest_name]; with
    manifest fields that have no [manifest_name] it goes to the back. *)
Lemma unmet_field_is_pushed_back_witness :
  ∃ out,
    _get_filtered_item_types_from_settings Samples.sample_filters
      Samples.sample_operator Samples.sample_method Samples.sample_equals
      Samples.sample_mapping
      {["manifest_file_fields" := YMap [("snapshot_type", YStr "maya_rig")]]}
    = Ok out
    ∧ (5, Some "maya_rig_work", "maya.rig") ∈ out.
Proof.
  destruct (unmet_field_is_pushed_back Samples.sample_filters
              Samples.sample_operator Samples.sample_method
              Samples.sample_equals Samples.sample_mapping
              {["manifest_file_fields" := YMap [("snapshot_type", YStr "maya_rig")]]}
              (YMap [("snapshot_type", YStr "maya_rig")])
              (2, Some "maya_rig_work", "maya.rig")
              ("manifest_name", "#startswith:egypt:True#"))
    as (out & M & Hout & HM & Hin).
  - reflexivity.
  - right. by left.
  - reflexivity.
  - vm_compute. right. by left.
  - reflexivity.
  - intros c'. unfold Samples.sample_mapping.
    rewrite !elem_of_cons, elem_of_nil.
    intros [->|[->|[->|[]]]] _ _; vm_compute; eauto.
  - vm_compute in HM. injection HM as <-. exists out. by split.
Defined.

End FilterOrderFacts.

(** ** Manifest Parser: what is read, the entries and their groups *)

Module ManifestShapeFacts.
Import FieldMapper Manifest ManifestTerms ManifestFacts.

Ltac run_result :=
  cbn [mbind result_bind mret result_ret
       py_items py_contains py_getitem py_iter py_len py_index py_str] in *.

(** A document that is not a mapping, or a mapping without [snapshots],
    is read as a failure: an error is logged and nothing is ingested,
    whatever notes and versions the document has. *)
Theorem manifest_without_snapshots_is_logged (mappings : manifest_mappings)
    (fs : string → manifest_read) (path : string) (contents : yaml) :
  fs path = Loaded contents →
  (∀ m, contents = YMap m → items_get "snapshots" m = None) →
  _process_manifest_file mappings fs path = ([read_failure_message path], Ok []).
Proof.
  intros Hfs Hno. apply load_failure_is_logged. right.
  exists contents. unfold read_contents.
  destruct contents as [| | | | |m]; run_result; try by eauto.
  rewrite (Hno m eq_refl). run_result. eauto.
Qed.

Lemma manifest_without_snapshots_is_logged_witness :
  _process_manifest_file DEFAULT_MANIFEST_SG_MAPPINGS Samples.wider_fs
    "/deliveries/notes_only/manifest.yaml"
  = ([read_failure_message "/deliveries/notes_only/manifest.yaml"], Ok []).
Proof.
  apply (manifest_without_snapshots_is_logged DEFAULT_MANIFEST_SG_MAPPINGS
           Samples.wider_fs "/deliveries/notes_only/manifest.yaml"
           (YMap [("notes", YList [YMap Samples.sample_note])])).
  - reflexivity.
  - intros m [= <-]. reflexivity.
Defined.

Lemma process_snapshots_app (mappings : manifest_mappings) (base_dir : string)
    (before rest : list yaml) :
  process_snapshots mappings base_dir (before ++ rest)
  = (done ← process_snapshots mappings base_dir before;
     more ← process_snapshots mappings base_dir rest;
     Ok (done ++ more)%list).
Proof.
  induction before as [|snapshot before IH]; simpl.
  - by destruct (process_snapshots mappings base_dir rest).
  - destruct (process_snapshot mappings base_dir snapshot); run_result; [|done].
    rewrite IH.
    destruct (process_snapshots mappings base_dir before); run_result; [|done].
    by destruct (process_snapshots mappings base_dir rest).
Qed.

(** A snapshot whose mapped fields have no [file_types] ends the whole
    processing with a [KeyError], also when the snapshots before it were
    processed. *)
Theorem snapshot_without_file_types_aborts (mappings : manifest_mappings)
    (fs : string → manifest_read) (path : string) (contents notes versions : yaml)
    (before after : list yaml) (snapshot : list (string * yaml)) :
  fs path = Loaded contents →
  read_contents contents
  = Ok (YList (before ++ YMap snapshot :: after), notes, versions) →
  is_Ok (process_snapshots mappings (path_dirname path) before) →
  apply_mappings (file_snapshots mappings) snapshot !! "file_types" = None →
  _process_manifest_file mappings fs path = ([], Raise (KeyError "file_types")).
Proof.
  intros Hfs Hread [done Hdone] Hnone.
  unfold _process_manifest_file. rewrite Hfs, Hread.
  unfold process_records. run_result.
  rewrite process_snapshots_app, Hdone. run_result.
  cbn [process_snapshots]. unfold process_snapshot at 1. run_result.
  unfold dict_pop. by rewrite Hnone.
Qed.

Lemma snapshot_without_file_types_aborts_witness :
  _process_manifest_file DEFAULT_MANIFEST_SG_MAPPINGS Samples.wider_fs
    "/deliveries/untyped/manifest.yaml" = ([], Raise (KeyError "file_types")).
Proof.
  apply (snapshot_without_file_types_aborts DEFAULT_MANIFEST_SG_MAPPINGS
           Samples.wider_fs "/deliveries/untyped/manifest.yaml"
           (YMap [("snapshots",
                   YList [YMap Samples.sample_snapshot;
                          YMap [("id", YInt 9); ("name", YStr "late")]])])
           (YList []) (YList [])
           [YMap Samples.sample_snapshot] []
           [("id", YInt 9); ("name", YStr "late")]).
  - reflexivity.
  - reflexivity.
  - vm_compute. eauto.
  - vm_compute. reflexivity.
Defined.

Lemma process_snapshots_shape (mappings : manifest_mappings) (base_dir : string)
    (snapshots : list yaml) (entities : list processed_entity) :
  process_snapshots mappings base_dir snapshots = Ok entities →
  length entities = length snapshots
  ∧ Forall (λ e, is_file_entity e = true) entities.
Proof.
  revert entities. induction snapshots as [|snapshot snapshots IH];
    intros entities; simpl.
  - intros [= <-]. by split.
  - destruct (process_snapshot mappings base_dir snapshot) as [e|] eqn:He;
      run_result; [|done].
    destruct (process_snapshots mappings base_dir snapshots) as [es|];
      run_result; [|done].
    intros [= <-]. destruct (IH es eq_refl) as [Hlen Hall].
    split; [simpl; by rewrite Hlen|]. constructor; [|done].
    unfold process_snapshot in He. run_result.
    destruct (py_items snapshot); run_result; [|done].
    destruct (dict_pop _ _) as [[? ?]|]; run_result; [|done].
    destruct (py_items _); run_result; [|done].
    destruct (foldM _ _ _); run_result; [|done].
    by injection He as <-.
Qed.

Lemma process_notes_shape (mappings : manifest_mappings) (base_dir : string)
    (snapshots versions : yaml) (i : nat) (notes : list yaml)
    (entities : list processed_entity) :
  process_notes mappings base_dir snapshots versions i notes = Ok entities →
  length entities = length notes
  ∧ Forall (λ e, is_note_entity e = true) entities.
Proof.
  revert i entities. induction notes as [|note notes IH];
    intros i entities; simpl.
  - intros [= <-]. by split.
  - destruct (process_note mappings base_dir snapshots versions i note)
      as [e|] eqn:He; run_result; [|done].
    destruct (process_notes mappings base_dir snapshots versions (S i) notes)
      as [es|] eqn:Hes; run_result; [|done].
    intros [= <-]. destruct (IH _ _ Hes) as [Hlen Hall].
    split; [simpl; by rewrite Hlen|]. constructor; [|done].
    unfold process_note in He. run_result.
    destruct (note_merged_fields _ _ _ _ _); run_result; [|done].
    destruct (dict_pop _ _) as [[? ?]|]; run_result; [|done].
    destruct (attachment_group _ _); run_result; [|done].
    destruct (attachment_paths _ _); run_result; [|done].
    by injection He as <-.
Qed.

(** What the function returns is one file entry per snapshot, in the
    order of the snapshots, followed by one note entry per note. *)
Theorem processed_entries_follow_the_manifest (mappings : manifest_mappings)
    (fs : string → manifest_read) (path : string)
    (contents : yaml) (snapshots notes : list yaml) (versions : yaml)
    (entries : list processed_entity) :
  fs path = Loaded contents →
  read_contents contents = Ok (YList snapshots, YList notes, versions) →
  (_process_manifest_file mappings fs path).2 = Ok entries →
  ∃ file_entries note_entries,
    entries = (file_entries ++ note_entries)%list
    ∧ length file_entries = length snapshots
    ∧ length note_entries = length notes
    ∧ Forall (λ e, is_file_entity e = true) file_entries
    ∧ Forall (λ e, is_note_entity e = true) note_entries.
Proof.
  intros Hfs Hread. unfold _process_manifest_file. rewrite Hfs, Hread.
  cbn [snd]. unfold process_records. run_result.
  destruct (process_snapshots mappings (path_dirname path) snapshots)
    as [file_entries|] eqn:Hfiles; run_result; [|done].
  destruct (process_notes mappings (path_dirname path) (YList snapshots)
              versions 0 notes) as [note_entries|] eqn:Hnotes;
    run_result; [|done].
  intros [= <-]. exists file_entries, note_entries.
  destruct (process_snapshots_shape _ _ _ _ Hfiles).
  destruct (process_notes_shape _ _ _ _ _ _ _ Hnotes). done.
Qed.

Lemma processed_entries_follow_the_manifest_witness :
  ∃ entries file_entries note_entries,
    (_process_manifest_file DEFAULT_MANIFEST_SG_MAPPINGS Samples.sample_fs
       "/deliveries/pkg/manifest.yaml").2 = Ok entries
    ∧ entries = (file_entries ++ note_entries)%list
    ∧ length file_entries = 1%nat
    ∧ length note_entries = 1%nat.
Proof.
  destruct (_process_manifest_file DEFAULT_MANIFEST_SG_MAPPINGS
              Samples.sample_fs "/deliveries/pkg/manifest.yaml").2
    as [entries|] eqn:Hrun; [|by vm_compute in Hrun].
  destruct (processed_entries_follow_the_manifest DEFAULT_MANIFEST_SG_MAPPINGS
              Samples.sample_fs "/deliveries/pkg/manifest.yaml"
              Samples.sample_manifest [YMap Samples.sample_snapshot]
              [YMap Samples.sample_note] (YList [YMap Samples.sample_version])
              entries)
    as (file_entries & note_entries & Heq & Hfiles & Hnotes & _ & _).
  - reflexivity.
  - reflexivity.
  - exact Hrun.
  - exists entries, file_entries, note_entries. done.
Defined.

(** *** File groups *)

(** What holds before a loop and is kept by every turn holds after it. *)
Lemma foldM_inv {A B} (f : A → B → result A) (P : A → Prop) (l : list B)
    (a a' : A) :
  (∀ a x a', P a → f a x = Ok a' → P a') →
  P a → foldM f a l = Ok a' → P a'.
Proof.
  intros Hstep. revert a. induction l as [|x l IH]; intros a Ha; simpl.
  - by intros [= <-].
  - destruct (f a x) as [a1|] eqn:Hf; run_result; [|done]. eauto.
Qed.

(** A loop that ends well has made the turn of each of its elements, and
    has gone on from there. *)
Lemma foldM_elem {A B} (f : A → B → result A) (l : list B) (x : B) (a a' : A) :
  x ∈ l → foldM f a l = Ok a' →
  ∃ a1 a2 rest, f a1 x = Ok a2 ∧ foldM f a2 rest = Ok a'.
Proof.
  revert a. induction l as [|y l IH]; intros a Hx; [by apply elem_of_nil in Hx|].
  simpl. destruct (f a y) as [a1|] eqn:Hf; run_result; [|done].
  apply elem_of_cons in Hx as [->|Hx]; eauto.
Qed.

Lemma append_tag_lookup (p t q : string) (acc : gmap string (list string)) :
  append_tag p t acc !! q
  = if decide (p = q) then Some (default [] (acc !! p) ++ [t])%list
    else acc !! q.
Proof.
  unfold append_tag, ensure_group. rewrite lookup_alter. case_decide as Hpq.
  - subst q. destruct (acc !! p) as [tags|] eqn:Hp; simpl.
    + by rewrite Hp.
    + by rewrite lookup_insert_eq.
  - destruct (acc !! p); [done|]. by rewrite lookup_insert_ne.
Qed.

(** A tag, once on a group, stays on it. *)
Lemma append_tag_keeps (p t q tag : string) (acc : gmap string (list string)) :
  tagged acc q tag → tagged (append_tag p t acc) q tag.
Proof.
  intros (tags & Hq & Htag). unfold tagged. rewrite append_tag_lookup.
  case_decide as Hpq; [|eauto]. subst q. rewrite Hq. simpl.
  eexists. split; [done|]. apply elem_of_app. by left.
Qed.

Lemma append_tag_tags (p t : string) (acc : gmap string (list string)) :
  tagged (append_tag p t acc) p t.
Proof.
  unfold tagged. rewrite append_tag_lookup, decide_True by done.
  eexists. split; [done|]. apply elem_of_app. right. by left.
Qed.

Lemma append_tag_within (seen : list string) (p t : string)
    (acc : gmap string (list string)) :
  t ∈ seen → groups_within seen acc → groups_within seen (append_tag p t acc).
Proof.
  intros Ht Hacc q tags. rewrite append_tag_lookup. case_decide as Hpq.
  - intros [= <-]. split; [by destruct (default [] (acc !! p))|].
    intros tag [Hold| ->%list_elem_of_singleton]%elem_of_app; [|done].
    destruct (acc !! p) as [old|] eqn:Hp; simpl in Hold.
    + by apply (Hacc p old Hp).
    + by apply elem_of_nil in Hold.
  - apply Hacc.
Qed.

(** The loop over the files of a file type without frame range. *)
Lemma discrete_files_loop (base_dir file_type : string) (seen : list string)
    (listed : list yaml) (acc acc' : gmap string (list string)) :
  foldM (λ acc p_file,
           append_path ← joined_path base_dir p_file;
           Ok (append_tag append_path file_type acc)) acc listed = Ok acc' →
  (file_type ∈ seen → groups_within seen acc → groups_within seen acc')
  ∧ (∀ q tag, tagged acc q tag → tagged acc' q tag)
  ∧ (∀ p_file, p_file ∈ listed →
       ∃ append_path, joined_path base_dir p_file = Ok append_path
                      ∧ tagged acc' append_path file_type).
Proof.
  revert acc. induction listed as [|p_file listed IH]; intros acc; simpl.
  - intros [= <-]. split; [done|]. split; [done|].
    intros p_file Hin. by apply elem_of_nil in Hin.
  - destruct (joined_path base_dir p_file) as [append_path|] eqn:Hjoin;
      run_result; [|done].
    intros (Hwithin & Hkeep & Hlisted)%IH. split; [|split].
    + intros Hseen Hacc. apply Hwithin; [done|]. by apply append_tag_within.
    + intros q tag Hq. by apply Hkeep, append_tag_keeps.
    + intros p_file' [->|Hin]%elem_of_cons; [|by apply Hlisted].
      exists append_path. split; [done|]. apply Hkeep, append_tag_tags.
Qed.

(** One turn of the loop over the file types. *)
Lemma process_file_type_groups (base_dir file_type : string) (spec : yaml)
    (seen : list string) (acc acc' : gmap string (list string)) :
  process_file_type base_dir acc (file_type, spec) = Ok acc' →
  (file_type ∈ seen → groups_within seen acc → groups_within seen acc')
  ∧ (∀ q tag, tagged acc q tag → tagged acc' q tag).
Proof.
  unfold process_file_type.
  destruct (py_contains "frame_range" spec) as [has_range|]; run_result; [|done].
  destruct (py_getitem "files" spec) as [listed|]; [|by destruct spec].
  cbn [mbind result_bind].
  destruct has_range.
  - destruct (py_index listed 0) as [first|]; cbn [mbind result_bind]; [|done].
    destruct (joined_path base_dir first) as [p_file|];
      cbn [mbind result_bind]; [|done].
    intros [= <-]. split.
    + intros Hseen Hacc. by apply append_tag_within.
    + intros q tag Hq. by apply append_tag_keeps.
  - destruct (py_iter listed) as [p_files|]; cbn [mbind result_bind]; [|done].
    intros (Hwithin & Hkeep & _)%(discrete_files_loop _ _ seen). by split.
Qed.

Lemma file_types_loop_groups (base_dir : string) (seen : list string)
    (entries : list (string * yaml)) (acc acc' : gmap string (list string)) :
  foldM (process_file_type base_dir) acc entries = Ok acc' →
  ((∀ entry, entry ∈ entries → entry.1 ∈ seen) →
   groups_within seen acc → groups_within seen acc')
  ∧ (∀ q tag, tagged acc q tag → tagged acc' q tag).
Proof.
  revert acc. induction entries as [|[file_type spec] entries IH];
    intros acc; cbn [foldM].
  - intros [= <-]. by split.
  - destruct (process_file_type base_dir acc (file_type, spec)) as [acc1|]
      eqn:Hturn; run_result; [|done].
    destruct (process_file_type_groups _ _ _ seen _ _ Hturn) as [Hw1 Hk1].
    intros [Hw Hk]%IH. split.
    + intros Hseen Hacc. apply Hw; [intros; apply Hseen; by right|].
      apply Hw1; [|done]. apply (Hseen (file_type, spec)). by left.
    + intros q tag Hq. by apply Hk, Hk1.
Qed.

(** What a snapshot that is processed comes to. *)
Lemma process_snapshot_result (mappings : manifest_mappings) (base_dir : string)
    (items : list (string * yaml)) (e : processed_entity) :
  process_snapshot mappings base_dir (YMap items) = Ok e →
  ∃ file_types entries data_files,
    apply_mappings (file_snapshots mappings) items !! "file_types"
    = Some file_types
    ∧ py_items file_types = Ok entries
    ∧ foldM (process_file_type base_dir) ∅ entries = Ok data_files
    ∧ e = FileEntity
            {| fields := delete "file_types"
                           (apply_mappings (file_snapshots mappings) items);
               files := data_files |}.
Proof.
  unfold process_snapshot, dict_pop. run_result.
  destruct (apply_mappings (file_snapshots mappings) items !! "file_types")
    as [file_types|]; cbn [mbind result_bind]; [|done].
  destruct (py_items file_types) as [entries|] eqn:Hentries;
    cbn [mbind result_bind]; [|done].
  destruct (foldM _ _ entries) as [data_files|] eqn:Hloop;
    cbn [mbind result_bind]; [|done].
  intros [= <-]. eauto 10.
Qed.

(** Every file group of a processed snapshot has at least one tag, and
    every tag of a group is the name of a file type of the snapshot. *)
Theorem snapshot_groups_carry_file_types (mappings : manifest_mappings)
    (base_dir : string) (items : list (string * yaml)) (e : processed_entity) :
  process_snapshot mappings base_dir (YMap items) = Ok e →
  ∃ file_types entries,
    apply_mappings (file_snapshots mappings) items !! "file_types"
    = Some file_types
    ∧ py_items file_types = Ok entries
    ∧ ∀ group_key tags,
        groups_of e !! group_key = Some tags →
        tags ≠ [] ∧ ∀ tag, tag ∈ tags → tag ∈ entries.*1.
Proof.
  intros (file_types & entries & data_files & Hft & Hentries & Hloop & ->)
    %process_snapshot_result.
  exists file_types, entries. split; [done|]. split; [done|].
  destruct (file_types_loop_groups _ (entries.*1) _ _ _ Hloop) as [Hwithin _].
  apply Hwithin.
  - intros entry Hin. apply list_elem_of_fmap. eauto.
  - intros q tags Hq. by rewrite lookup_empty in Hq.
Qed.

(** The files a snapshot lists end in a group that carries the name of
    their file type: with a frame range the group is the directory of the
    first listed file, without one every listed file is a group. *)
Theorem listed_files_are_tagged (mappings : manifest_mappings)
    (base_dir : string) (items entries spec : list (string * yaml))
    (file_type : string) (listed : list yaml) (e : processed_entity) :
  process_snapshot mappings base_dir (YMap items) = Ok e →
  apply_mappings (file_snapshots mappings) items !! "file_types"
  = Some (YMap entries) →
  (file_type, YMap spec) ∈ entries →
  items_get "files" spec = Some (YList listed) →
  (items_has "frame_range" spec = true →
   ∃ first p_file,
     listed !! 0%nat = Some first
     ∧ joined_path base_dir first = Ok p_file
     ∧ tagged (groups_of e) (path_dirname p_file) file_type)
  ∧ (items_has "frame_range" spec = false →
     ∀ p_file, p_file ∈ listed →
       ∃ append_path,
         joined_path base_dir p_file = Ok append_path
         ∧ tagged (groups_of e) append_path file_type).
Proof.
  intros (file_types & entries' & data_files & Hft & Hentries & Hloop & ->)
    %process_snapshot_result Hft' Hin Hfiles.
  rewrite Hft in Hft'. injection Hft' as ->.
  cbn [py_items] in Hentries. injection Hentries as <-.
  destruct (foldM_elem _ _ _ _ _ Hin Hloop) as (acc1 & acc2 & rest & Hturn & Hrest).
  destruct (file_types_loop_groups _ [] _ _ _ Hrest) as [_ Hkeep].
  cbn [groups_of files].
  unfold process_file_type in Hturn. cbn [py_contains py_getitem] in Hturn.
  rewrite Hfiles in Hturn. cbn [mbind result_bind] in Hturn.
  split; intros Hrange; rewrite Hrange in Hturn.
  - cbn [py_index] in Hturn.
    destruct (listed !! 0%nat) as [first|] eqn:Hfirst;
      cbn [mbind result_bind] in Hturn; [|done].
    destruct (joined_path base_dir first) as [p_file|] eqn:Hjoin;
      cbn [mbind result_bind] in Hturn; [|done].
    injection Hturn as <-. exists first, p_file.
    split; [done|]. split; [done|]. apply Hkeep, append_tag_tags.
  - cbn [py_iter mbind result_bind] in Hturn.
    destruct (discrete_files_loop _ _ [] _ _ _ Hturn) as (_ & _ & Hlisted).
    intros p_file Hp. destruct (Hlisted p_file Hp) as (append_path & Hj & Ht).
    exists append_path. split; [done|]. by apply Hkeep.
Qed.

Lemma snapshot_groups_carry_file_types_witness :
  ∃ e,
    process_snapshot DEFAULT_MANIFEST_SG_MAPPINGS "/deliveries/pkg"
      (YMap Samples.sequence_snapshot) = Ok e
    ∧ ∀ group_key tags,
        groups_of e !! group_key = Some tags →
        tags ≠ [] ∧ ∀ tag, tag ∈ tags → tag ∈ Samples.sequence_file_types.*1.
Proof.
  destruct (process_snapshot DEFAULT_MANIFEST_SG_MAPPINGS "/deliveries/pkg"
              (YMap Samples.sequence_snapshot)) as [e|] eqn:He;
    [|by vm_compute in He].
  destruct (snapshot_groups_carry_file_types DEFAULT_MANIFEST_SG_MAPPINGS
              "/deliveries/pkg" Samples.sequence_snapshot e He)
    as (file_types & entries & Hft & Hentries & Hgroups).
  vm_compute in Hft. injection Hft as <-.
  cbn [py_items] in Hentries. injection Hentries as <-.
  exists e. split; [reflexivity|]. exact Hgroups.
Defined.

Lemma listed_files_are_tagged_witness :
  ∃ e,
    process_snapshot DEFAULT_MANIFEST_SG_MAPPINGS "/deliveries/pkg"
      (YMap Samples.sequence_snapshot) = Ok e
    ∧ tagged (groups_of e) "/deliveries/pkg/plates" "plate"
    ∧ tagged (groups_of e) "/deliveries/pkg/maya/sh010_layout_v001.mb" "main".
Proof.
  destruct (process_snapshot DEFAULT_MANIFEST_SG_MAPPINGS "/deliveries/pkg"
              (YMap Samples.sequence_snapshot)) as [e|] eqn:He;
    [|by vm_compute in He].
  exists e. split; [reflexivity|]. split.
  - destruct (listed_files_are_tagged DEFAULT_MANIFEST_SG_MAPPINGS
                "/deliveries/pkg" Samples.sequence_snapshot
                Samples.sequence_file_types Samples.plate_spec "plate"
                [YMap [("path", YStr "plates/sh010.1001.exr")];
                 YMap [("path", YStr "plates/sh010.1002.exr")]] e He)
      as [Hrange _].
    + vm_compute. reflexivity.
    + by left.
    + reflexivity.
    + destruct Hrange as (first & p_file & Hfirst & Hjoin & Htag);
        [reflexivity|].
      injection Hfirst as <-. vm_compute in Hjoin. injection Hjoin as <-.
      exact Htag.
  - destruct (listed_files_are_tagged DEFAULT_MANIFEST_SG_MAPPINGS
                "/deliveries/pkg" Samples.sequence_snapshot
                Samples.sequence_file_types Samples.scene_spec "main"
                [YMap [("path", YStr "maya/sh010_layout_v001.mb")]] e He)
      as [_ Hdiscrete].
    + vm_compute. reflexivity.
    + right. by left.
    + reflexivity.
    + destruct (Hdiscrete eq_refl
                  (YMap [("path", YStr "maya/sh010_layout_v001.mb")]))
        as (append_path & Hjoin & Htag); [by left|].
      vm_compute in Hjoin. injection Hjoin as <-. exact Htag.
Defined.

End ManifestShapeFacts.

(** ** Context Resolver: the ways a resolution ends *)

Module ContextPathsFacts.
Import Shotgun Manifest ContextResolver ContextResolverFacts.

Section Resolver.
Context {db : Type} (sg : client db).
Variable get_template_by_name : string → template_kind.
Variable base_context : string → string → list yaml → result context.

Local Abbreviation resolve wpt path seeds :=
  (_get_item_context_from_path sg get_template_by_name base_context
     wpt path seeds).
Local Abbreviation first_path wpt path :=
  (resolved_path get_template_by_name wpt path).

(** A first resolution without entity, or with an entity for whose type
    no vendor step is found, is the result: nothing is created or
    updated, and in the first case nothing is even looked up. *)
Theorem resolution_without_step_is_kept (work_path_template path : string)
    (default_entities : list yaml) (d : db) (ctx : context) :
  base_context work_path_template (first_path work_path_template path)
    default_entities = Ok ctx →
  (truthy (entity ctx) = false →
   resolve work_path_template path default_entities d = ([], d, Ok ctx))
  ∧ (∀ entity_type step_entity,
       truthy (entity ctx) = true →
       truthy (step ctx) = false →
       py_getitem "type" (entity ctx) = Ok entity_type →
       sg_find_one sg d "Step" (step_query entity_type) step_fields
       = Ok step_entity →
       truthy step_entity = false →
       resolve work_path_template path default_entities d
       = ([FindOne "Step" (step_query entity_type)], d, Ok ctx)).
Proof.
  intros Hfirst. unfold _get_item_context_from_path, run_bind, pure_step.
  rewrite Hfirst. split.
  - by intros ->.
  - intros entity_type step_entity -> Hnostep Htype Hstep Hfalse.
    unfold find_step, run_bind, pure_step, call_find_one, run_ret.
    by rewrite Hnostep, Htype, Hstep, Hfalse.
Qed.

(** A task that is found under the step is not created again; its status
    is set once more, and whether that update returns or raises the second
    resolution is made with the step and the task. *)
Theorem found_task_is_reset_not_created (work_path_template path : string)
    (default_entities : list yaml) (d d' : db) (ctx : context)
    (step_entity content found task_id : yaml) (updated : result unit)
    (step_events : list event) :
  base_context work_path_template (first_path work_path_template path)
    default_entities = Ok ctx →
  truthy (entity ctx) = true →
  find_step sg ctx d = (step_events, d, Ok step_entity) →
  truthy step_entity = true →
  step_content step_entity = Ok content →
  sg_find_one sg d "Task" (task_query ctx step_entity content) task_fields
  = Ok found →
  truthy found = true →
  py_getitem "id" found = Ok task_id →
  sg_update sg d "Task" task_id [("sg_status_list", YStr "na")] = (updated, d') →
  resolve work_path_template path default_entities d
  = ((step_events
      ++ [FindOne "Task" (task_query ctx step_entity content);
          Update "Task" task_id [("sg_status_list", YStr "na")]])%list,
     d',
     base_context work_path_template (first_path work_path_template path)
       [step_entity; found]).
Proof.
  intros Hfirst Hentity Hstep Htrue Hcontent Hfound Hfoundtrue Hid Hupdate.
  unfold _get_item_context_from_path, run_bind at 1, pure_step at 1.
  rewrite Hfirst, Hentity. unfold run_bind at 1. rewrite Hstep, Htrue.
  unfold vendor_task, run_bind, pure_step, call_find_one, run_ret,
    try_except, call_update.
  rewrite Hcontent, Hfound, Hfoundtrue. cbn [app]. rewrite Hfoundtrue, Hid.
  cbn [app]. rewrite Hupdate.
  destruct updated as [[]|e]; cbn [app];
    destruct (base_context _ _ [step_entity; found]);
    rewrite ?app_nil_r; reflexivity.
Qed.

End Resolver.

Lemma resolution_without_step_is_kept_witness :
  _get_item_context_from_path Samples.stepless_client Samples.sample_templates
    Samples.project_base_context "ingest_asset_work" "/deliveries/pkg/a.mb" [] []
  = ([], [], Ok Samples.project_context)
  ∧ _get_item_context_from_path Samples.stepless_client Samples.sample_templates
      Samples.sample_base_context "ingest_asset_work" "/deliveries/pkg/a.mb" [] []
    = ([FindOne "Step" (step_query (YStr "Asset"))], [], Ok Samples.first_context).
Proof.
  split.
  - apply (proj1 (resolution_without_step_is_kept Samples.stepless_client
                    Samples.sample_templates Samples.project_base_context
                    "ingest_asset_work" "/deliveries/pkg/a.mb" [] []
                    Samples.project_context eq_refl)).
    reflexivity.
  - apply (proj2 (resolution_without_step_is_kept Samples.stepless_client
                    Samples.sample_templates Samples.sample_base_context
                    "ingest_asset_work" "/deliveries/pkg/a.mb" [] []
                    Samples.first_context eq_refl)
             (YStr "Asset") YNone); reflexivity.
Defined.

Lemma found_task_is_reset_not_created_witness :
  _get_item_context_from_path Samples.refusing_client Samples.sample_templates
    Samples.sample_base_context "ingest_asset_work" "/deliveries/pkg/a.mb" []
    [Samples.vendor_task]
  = ([FindOne "Step" (step_query (YStr "Asset"));
      FindOne "Task"
        (task_query Samples.first_context Samples.vendor_step (YStr "vendor"));
      Update "Task" (YInt 501) [("sg_status_list", YStr "na")]],
     [Samples.vendor_task],
     Samples.sample_base_context "ingest_asset_work" "/deliveries/pkg/a.mb"
       [Samples.vendor_step; Samples.vendor_task]).
Proof.
  apply (found_task_is_reset_not_created Samples.refusing_client
           Samples.sample_templates Samples.sample_base_context
           "ingest_asset_work" "/deliveries/pkg/a.mb" []
           [Samples.vendor_task] [Samples.vendor_task] Samples.first_context
           Samples.vendor_step (YStr "vendor") Samples.vendor_task (YInt 501)
           (Ok ()) [FindOne "Step" (step_query (YStr "Asset"))]);
    reflexivity.
Defined.

Lemma task_creation_none_is_logged_witness :
  ∃ step_call task_call,
    _get_item_context_from_path Samples.silent_client Samples.sample_templates
      Samples.sample_base_context "ingest_asset_work" "/deliveries/pkg/a.mb" [] []
    = ([step_call; task_call;
        Create "Task"
          (task_data Samples.first_context Samples.vendor_step (YStr "vendor"));
        LogError create_failure_message], [],
       Samples.sample_base_context "ingest_asset_work" "/deliveries/pkg/a.mb"
         [Samples.vendor_step]).
Proof.
  apply (task_creation_none_is_logged Samples.silent_client
           Samples.sample_templates Samples.sample_base_context
           "ingest_asset_work" "/deliveries/pkg/a.mb" [] [] []
           Samples.first_context Samples.vendor_step (YStr "vendor") YNone).
  - split; try reflexivity.
    + exists (YStr "Asset"). split; reflexivity.
    + exists YNone. split; reflexivity.
  - reflexivity.
  - reflexivity.
Defined.

Lemma status_update_failure_is_swallowed_witness :
  ∃ events,
    _get_item_context_from_path Samples.stale_client Samples.sample_templates
      Samples.sample_base_context "ingest_asset_work" "/deliveries/pkg/a.mb" [] []
    = (events, [Samples.vendor_task],
       Samples.sample_base_context "ingest_asset_work" "/deliveries/pkg/a.mb"
         [Samples.vendor_step; Samples.vendor_task]).
Proof.
  apply (status_update_failure_is_swallowed Samples.stale_client
           Samples.sample_templates Samples.sample_base_context
           "ingest_asset_work" "/deliveries/pkg/a.mb" [] []
           [Samples.vendor_task] [Samples.vendor_task]
           Samples.first_context Samples.vendor_step (YStr "vendor")
           Samples.vendor_task (YInt 501) Fault).
  - split; try reflexivity.
    + exists (YStr "Asset"). split; reflexivity.
    + exists YNone. split; reflexivity.
  - reflexivity.
  - reflexivity.
  - reflexivity.
  - reflexivity.
Defined.

End ContextPathsFacts.

(** ** Entity Linker: the ways an undo ends *)

Module UndoPathsFacts.
Import Shotgun Manifest IngestFiles IngestFilesFacts.

Section Linker.
Context {db : Type} (sg : client db).
Variable snapshot_type_settings : gmap string string.

Local Abbreviation find_linked fields :=
  (_find_linked_entity sg snapshot_type_settings fields).
Local Abbreviation resolve_type it :=
  (_resolve_linked_entity_type snapshot_type_settings it).
Local Abbreviation undo := (undo sg snapshot_type_settings).

(** A lookup that returns has set the item's [linked_entity_type] to the
    type resolved from the settings. *)
Lemma find_linked_sets_type (fields : list string) (d d' : db) (it it' : item)
    (events : list event) (found : yaml) :
  find_linked fields (d, it) = (events, (d', it'), Ok found) →
  ∃ t, resolve_type it = Ok t
       ∧ properties it' !! "linked_entity_type" = Some (YStr t)
       ∧ name it' = name it.
Proof.
  unfold _find_linked_entity, run_bind, get_item, pure_step, set_property,
    run_ret, call_find_one. cbn [fst snd].
  destruct (resolve_type it) as [t|e]; [|done]. cbn [fst snd].
  destruct (String.eqb t UNLINKED_ENTITY_TYPE).
  - intros [= <- <- <- <-]. exists t.
    cbn [properties set_properties name]. by rewrite lookup_insert_eq.
  - destruct (property "publish_linked_entity_name" it); [|done].
    destruct (context_filters it t); [|done].
    destruct (property "fields" it) as [item_fields|]; [|done].
    destruct (py_getitem "snapshot_type" item_fields); [|done].
    cbn [fst snd]. intros [= <- <- <- _]. exists t.
    cbn [properties set_properties name]. by rewrite lookup_insert_eq.
Qed.

(** A deletion that raises is logged and goes no further: [undo] returns,
    and the item still carries the entity. *)
Theorem failed_delete_is_logged (d dF d2 : db) (it itF : item)
    (found_events : list event)
    (linked_entity_data linked_entity entity_type entity_id : yaml) (e : exn) :
  properties it !! "ingest_entity_data" = Some linked_entity_data →
  find_linked ["sg_published_files"] (d, it)
  = (found_events, (dF, itF), Ok linked_entity) →
  nothing_published linked_entity_data linked_entity = Ok true →
  py_getitem "type" linked_entity_data = Ok entity_type →
  py_getitem "id" linked_entity_data = Ok entity_id →
  sg_delete sg d entity_type entity_id = (Raise e, d2) →
  ∃ t,
    undo (d, it)
    = ((found_events
        ++ [Delete entity_type entity_id;
            LogError (delete_failure_message (YStr t) (name it))])%list,
       (d2, itF), Ok ())
    ∧ properties itF !! "ingest_entity_data" = Some linked_entity_data.
Proof.
  intros Hled HF Hnp Htype Hid Hdel.
  destruct (find_linked_entity_spares sg snapshot_type_settings
              "ingest_entity_data" ["sg_published_files"] ltac:(done) _ _ _ _ HF)
    as (_ & HdF & HpF & _).
  cbn [fst snd] in *. subst dF. rewrite Hled in HpF.
  destruct (find_linked_sets_type _ _ _ _ _ _ _ HF) as (t & _ & Ht & Hname).
  exists t. split; [|done].
  unfold IngestFiles.undo, run_bind at 1, get_item at 1. cbn [fst snd].
  rewrite Hled. unfold run_bind at 1. rewrite HF.
  unfold run_bind at 1, pure_step at 1. rewrite Hnp.
  unfold try_except, delete_linked_entity, run_bind, pure_step, call_delete,
    world_client. cbn [sg_delete fst snd].
  rewrite Htype, Hid, Hdel.
  unfold report_delete_failure, run_bind, get_item, pure_step, log_error,
    property. cbn [fst snd]. rewrite Ht, Hname.
  cbn [app]. reflexivity.
Qed.

(** Under settings that leave the snapshot type of the item unlinked,
    [undo] makes no round-trip at all: nothing is looked up, nothing is
    deleted, and the item keeps what it carries. *)
Theorem unlinked_item_is_left_alone (d : db) (it : item) :
  resolve_type it = Ok UNLINKED_ENTITY_TYPE →
  ∃ it',
    undo (d, it) = ([], (d, it'), Ok ())
    ∧ properties it' !! "ingest_entity_data"
      = properties it !! "ingest_entity_data".
Proof.
  intros Hresolve.
  unfold IngestFiles.undo, run_bind at 1, get_item at 1. cbn [fst snd].
  destruct (properties it !! "ingest_entity_data") as [led|] eqn:Hled.
  2:{ exists it. by rewrite Hled. }
  unfold _find_linked_entity, run_bind, get_item, pure_step, set_property,
    run_ret. cbn [fst snd]. rewrite Hresolve. cbn [fst snd].
  rewrite String.eqb_refl. unfold nothing_published. cbn [truthy].
  rewrite andb_false_r. eexists. split; [reflexivity|].
  cbn [properties set_properties]. by rewrite lookup_insert_ne.
Qed.


End Linker.

Lemma failed_delete_is_logged_witness :
  ∃ found_events itF t,
    undo Samples.locked_client Samples.linking_settings
      ([Samples.linked_asset []], Samples.linked_item)
    = ((found_events
        ++ [Delete (YStr "Asset") (YInt 40);
            LogError (delete_failure_message (YStr t)
                        "egypt_riser_a_hi_v001.mb")])%list,
       ([Samples.linked_asset []], itF), Ok ())
    ∧ properties itF !! "ingest_entity_data"
      = Some (YMap [("type", YStr "Asset"); ("id", YInt 40)]).
Proof.
  eexists _, _.
  eapply (failed_delete_is_logged Samples.locked_client
            Samples.linking_settings [Samples.linked_asset []]).
  - reflexivity.
  - vm_compute. reflexivity.
  - vm_compute. reflexivity.
  - reflexivity.
  - reflexivity.
  - reflexivity.
Defined.

Lemma unlinked_item_is_left_alone_witness :
  ∃ it',
    undo Samples.listing_client Samples.default_linking_settings
      ([Samples.linked_asset []], Samples.linked_item)
    = ([], ([Samples.linked_asset []], it'), Ok ())
    ∧ properties it' !! "ingest_entity_data"
      = Some (YMap [("type", YStr "Asset"); ("id", YInt 40)]).
Proof.
  destruct (unlinked_item_is_left_alone Samples.listing_client
              Samples.default_linking_settings [Samples.linked_asset []]
              Samples.linked_item) as (it' & Hundo & Hkept).
  - vm_compute. reflexivity.
  - exists it'. split; [exact Hundo|]. rewrite Hkept. vm_compute. reflexivity.
Defined.


End UndoPathsFacts.
